(** * httpcache: a private HTTP response cache (Go), shallow embedding

    The development follows the Go sources:
    - [memcache.go]: [MemoryCache], [parseCacheControl], [canStore],
      [canStaleOnError], [getFreshness];
    - [header.go]: [headerAllCommaSepValues], [Date], [getEndToEndHeaders];
    - [io.go]: [cachingReadCloser];
    - the client file: [cacheKey], [CachedResponse], [executeRequest],
      [varyMatches], [newGatewayTimeoutResponse], [cloneRequest].

    Go strings are byte strings and are modelled by [string]; [[]byte] by
    [list byte]; Go maps by stdpp's [gmap]; [time.Duration] by [Z] with the
    64-bit wrap-around written out. Calls into the Go standard library whose
    result depends on wall-clock time, on the wire format or on the network
    are parameters of the development. *)

From Stdlib Require Import ZArith String Ascii Strings.Byte List Bool Lia.
From stdpp Require Import gmap strings list fin_maps.

Local Open Scope string_scope.

(* ===================================================================== *)
(** ** The pieces of Go's [strings] package the sources call              *)
(* ===================================================================== *)

Module GoStrings.

(** [strings.Split(s, sep)] for a one-byte separator: always at least one
    field, [n+1] fields for [n] separators. *)
Fixpoint Split (s : string) (sep : ascii) : list string :=
  match s with
  | EmptyString => [EmptyString]
  | String c r =>
      if Ascii.eqb c sep then EmptyString :: Split r sep
      else match Split r sep with
           | [] => [String c EmptyString]
           | f :: fs => String c f :: fs
           end
  end.

Fixpoint TrimLeftFunc (cut : ascii -> bool) (s : string) : string :=
  match s with
  | EmptyString => EmptyString
  | String c r => if cut c then TrimLeftFunc cut r else s
  end.

Fixpoint TrimRightFunc (cut : ascii -> bool) (s : string) : string :=
  match s with
  | EmptyString => EmptyString
  | String c r =>
      match TrimRightFunc cut r with
      | EmptyString => if cut c then EmptyString else String c EmptyString
      | r' => String c r'
      end
  end.

Definition TrimFunc (cut : ascii -> bool) (s : string) : string :=
  TrimRightFunc cut (TrimLeftFunc cut s).

(** [strings.Trim(s, cutset)] for a one-byte cutset. *)
Definition Trim (s : string) (cutset : ascii) : string :=
  TrimFunc (Ascii.eqb cutset) s.

(** [strings.TrimSpace] removes leading and trailing white space as
    defined by Unicode ([unicode.IsSpace]), rune by rune, on the UTF-8
    bytes of the string. [isSpace] is the white space among the bytes
    below 0x80 (Go's [asciiSpace]): tab, line feed, vertical tab, form
    feed, carriage return, space. *)
Definition isSpace (c : ascii) : bool :=
  let n := nat_of_ascii c in
  ((9 <=? n)%nat && (n <=? 13)%nat) || (n =? 32)%nat.

(** The white space runes of two bytes: U+0085 (C2 85) and U+00A0
    (C2 A0). *)
Definition isSpace2 (c1 c2 : ascii) : bool :=
  let b1 := nat_of_ascii c1 in
  let b2 := nat_of_ascii c2 in
  (b1 =? 194)%nat && ((b2 =? 133)%nat || (b2 =? 160)%nat).

(** The white space runes of three bytes: U+1680 (E1 9A 80), U+2000 to
    U+200A (E2 80 80 to E2 80 8A), U+2028, U+2029, U+202F (E2 80 A8,
    E2 80 A9, E2 80 AF), U+205F (E2 81 9F) and U+3000 (E3 80 80). No
    rune of four bytes is white space. *)
Definition isSpace3 (c1 c2 c3 : ascii) : bool :=
  let b1 := nat_of_ascii c1 in
  let b2 := nat_of_ascii c2 in
  let b3 := nat_of_ascii c3 in
  ((b1 =? 225)%nat && (b2 =? 154)%nat && (b3 =? 128)%nat)
  || ((b1 =? 226)%nat && (b2 =? 128)%nat
      && (((128 <=? b3)%nat && (b3 <=? 138)%nat)
          || (b3 =? 168)%nat || (b3 =? 169)%nat || (b3 =? 175)%nat))
  || ((b1 =? 226)%nat && (b2 =? 129)%nat && (b3 =? 159)%nat)
  || ((b1 =? 227)%nat && (b2 =? 128)%nat && (b3 =? 128)%nat).

(** Dropping from the front of a byte sequence every rune of one, two or
    three bytes that the three tests accept, up to the first rune they
    do not accept. A byte that starts no accepted rune (an ASCII byte
    that is no space, another rune, or a byte that is no valid UTF-8)
    stops the loop, as [utf8.RuneError] is no white space. *)
Fixpoint dropRunes (p1 : ascii -> bool) (p2 : ascii -> ascii -> bool)
    (p3 : ascii -> ascii -> ascii -> bool) (l : list ascii)
  : list ascii :=
  match l with
  | [] => []
  | c1 :: r1 =>
      if p1 c1 then dropRunes p1 p2 p3 r1
      else
        match r1 with
        | [] => l
        | c2 :: r2 =>
            if p2 c1 c2 then dropRunes p1 p2 p3 r2
            else
              match r2 with
              | [] => l
              | c3 :: r3 =>
                  if p3 c1 c2 c3 then dropRunes p1 p2 p3 r3 else l
              end
        end
  end.

(** Leading white space, read forwards; trailing white space, read
    backwards from the last byte (as [utf8.DecodeLastRuneInString] finds
    the last rune). *)
Definition trimSpaceLeft (l : list ascii) : list ascii :=
  dropRunes isSpace isSpace2 isSpace3 l.

Definition trimSpaceRight (l : list ascii) : list ascii :=
  rev (dropRunes isSpace (fun c1 c2 => isSpace2 c2 c1)
         (fun c1 c2 c3 => isSpace3 c3 c2 c1) (rev l)).

Definition TrimSpace (s : string) : string :=
  string_of_list_ascii
    (trimSpaceRight (trimSpaceLeft (list_ascii_of_string s))).

Fixpoint ContainsRune (s : string) (r : ascii) : bool :=
  match s with
  | EmptyString => false
  | String c t => Ascii.eqb c r || ContainsRune t r
  end.

End GoStrings.

(* ===================================================================== *)
(** ** [net/http]: header maps, requests, responses                       *)
(* ===================================================================== *)

Module Http.

(** The token bytes of a header field name ([validHeaderFieldByte]). *)
Definition validHeaderFieldByte (c : ascii) : bool :=
  let n := nat_of_ascii c in
  ((48 <=? n)%nat && (n <=? 57)%nat)        (* 0-9 *)
  || ((65 <=? n)%nat && (n <=? 90)%nat)     (* A-Z *)
  || ((97 <=? n)%nat && (n <=? 122)%nat)    (* a-z *)
  || existsb (Nat.eqb n)
       [33; 35; 36; 37; 38; 39; 42; 43; 45; 46; 94; 95; 96; 124; 126]%nat.

Definition isLower (c : ascii) : bool :=
  let n := nat_of_ascii c in ((97 <=? n)%nat && (n <=? 122)%nat).
Definition isUpper (c : ascii) : bool :=
  let n := nat_of_ascii c in ((65 <=? n)%nat && (n <=? 90)%nat).
Definition toUpper (c : ascii) : ascii := ascii_of_nat (nat_of_ascii c - 32).
Definition toLower (c : ascii) : ascii := ascii_of_nat (nat_of_ascii c + 32).

Fixpoint allBytes (p : ascii -> bool) (s : string) : bool :=
  match s with
  | EmptyString => true
  | String c r => p c && allBytes p r
  end.

(** The loop of [canonicalMIMEHeaderKey]: upper-case the first letter and
    every letter after a hyphen, lower-case the others. *)
Fixpoint canonLoop (upper : bool) (s : string) : string :=
  match s with
  | EmptyString => EmptyString
  | String c r =>
      let c' := if upper && isLower c then toUpper c
                else if negb upper && isUpper c then toLower c
                else c in
      String c' (canonLoop (Ascii.eqb c' "-"%char) r)
  end.

(** [http.CanonicalHeaderKey]: a key with a byte that is no token byte is
    returned unchanged. *)
Definition CanonicalHeaderKey (s : string) : string :=
  if allBytes validHeaderFieldByte s then canonLoop true s else s.

(** [http.Header] is [map[string][]string]. *)
Abbreviation Header := (gmap string (list string)).

(** [h.Get(key)]: first value under the canonical key, [""] if none. *)
Definition Header_Get (h : Header) (key : string) : string :=
  match h !! CanonicalHeaderKey key with
  | Some (v :: _) => v
  | _ => ""
  end.

(** [h.Set(key, value)]. *)
Definition Header_Set (h : Header) (key value : string) : Header :=
  <[CanonicalHeaderKey key := [value]]> h.

(** The fields of [http.Request] the cache reads; [URL] stands for
    [req.URL.String()]. *)
Record Request := mkRequest {
  Method : string;
  URL : string;
  ReqHeader : Header
}.

(** A Go [(value, error)] pair of which exactly one side is set. *)
Inductive result (A : Type) : Type :=
| Ok (a : A)
| Err (msg : string).
Arguments Ok {A} a.
Arguments Err {A} msg.

(** The fields of [http.Response] the cache reads and writes. [Body] is the
    byte sequence the body stream delivers up to end-of-stream. *)
Record Response := mkResponse {
  Status : string;
  StatusCode : Z;
  RespHeader : Header;
  Body : list byte
}.

Definition StatusOK : Z := 200.
Definition StatusNotModified : Z := 304.

End Http.

Import GoStrings Http.

(* ===================================================================== *)
(** ** memcache.go: the storage interface and the in-memory backend       *)
(* ===================================================================== *)

(** [type Cache interface { Get; Set; Delete }]. Go mutates the backend in
    place; here every operation returns the new backend. *)
Class Cache (C : Type) : Type := {
  Cache_Get : C -> string -> option (list byte);
  Cache_Set : C -> string -> list byte -> Z -> C;
  Cache_Delete : C -> string -> C
}.

(** [type MemoryCache struct { mu sync.RWMutex; items map[string][]byte }];
    the mutex has no sequential content. *)
Record MemoryCache := mkMemoryCache {
  items : gmap string (list byte)
}.

Definition MemoryCache_Get (mc : MemoryCache) (key : string)
  : option (list byte) :=
  items mc !! key.

Definition MemoryCache_Set (mc : MemoryCache) (key : string)
    (resp : list byte) (ttl : Z) : MemoryCache :=
  {| items := <[key := resp]> (items mc) |}.

Definition MemoryCache_Delete (mc : MemoryCache) (key : string)
  : MemoryCache :=
  {| items := delete key (items mc) |}.

Definition NewMemoryCache : MemoryCache := {| items := ∅ |}.

#[export] Instance MemoryCache_Cache : Cache MemoryCache := {
  Cache_Get := MemoryCache_Get;
  Cache_Set := MemoryCache_Set;
  Cache_Delete := MemoryCache_Delete
}.

(** A backend on which [Delete] removes the value associated with the key
    and [Set] stores it, whatever the TTL. *)
Class LawfulCache (C : Type) `{Cache C} : Prop := {
  Cache_Get_Set : forall (c : C) (k : string) (v : list byte) (ttl : Z),
    Cache_Get (Cache_Set c k v ttl) k = Some v;
  Cache_Get_Delete : forall (c : C) (k : string),
    Cache_Get (Cache_Delete c k) k = None
}.

(* ===================================================================== *)
(** ** memcache.go: cache-control directives                              *)
(* ===================================================================== *)

(** [type cacheControl map[string]string]. *)
Abbreviation cacheControl := (gmap string string).

Inductive entryFreshness : Set := stale | fresh | transparent.

Definition entryFreshness_String (f : entryFreshness) : string :=
  match f with
  | stale => "stale"
  | fresh => "fresh"
  | transparent => "transparent"
  end.

(** [_, ok := m[k]]. *)
Definition hasKey {V : Type} (m : gmap string V) (k : string) : bool :=
  match m !! k with Some _ => true | None => false end.

(** One turn of the loop of [parseCacheControl]. [keyVal[0]] and
    [keyVal[1]] are in range because [part] contains ['=']. *)
Definition parsePart (cc : cacheControl) (part : string) : cacheControl :=
  let part := Trim part " " in
  if String.eqb part "" then cc
  else if ContainsRune part "=" then
    let keyVal := Split part "=" in
    <[Trim (nth 0 keyVal "") " " := Trim (nth 1 keyVal "") ","]> cc
  else <[part := ""]> cc.

Definition parseCacheControl (headers : Header) : cacheControl :=
  let ccHeader := Header_Get headers "Cache-Control" in
  foldl parsePart ∅ (Split ccHeader ",").

Definition canStore (reqCacheControl respCacheControl : cacheControl)
  : bool :=
  if hasKey respCacheControl "no-store" then false
  else if hasKey reqCacheControl "no-store" then false
  else true.

(** [time.Duration] is an [int64] count of nanoseconds. *)
Definition wrap64 (z : Z) : Z := ((z + 2 ^ 63) mod 2 ^ 64 - 2 ^ 63)%Z.

(* ===================================================================== *)
(** ** header.go, memcache.go and the client file                         *)
(* ===================================================================== *)

Definition ErrNoDateHeader : string := "no Date header".

(** XFromCache is the header added to responses that are returned from the
    cache. *)
Definition XFromCache : string := "X-From-Cache".

Record CacheOptions := mkCacheOptions {
  TTL : Z;
  MarkCachedResponses : bool;
  Debug : bool
}.

(** [CachedClient]: the [Cache] field is a pointer to a mutable backend and
    is threaded through the functions below as a separate argument.
    [Transport.RoundTrip] gives back a response or an error. *)
Record CachedClient := mkCachedClient {
  Transport : Request -> result Response;
  Options : CacheOptions
}.

Definition setReqHeader (r : Request) (key value : string) : Request :=
  {| Method := Method r; URL := URL r;
     ReqHeader := Header_Set (ReqHeader r) key value |}.

Definition setRespHeader (r : Response) (key value : string) : Response :=
  {| Status := Status r; StatusCode := StatusCode r;
     RespHeader := Header_Set (RespHeader r) key value;
     Body := Body r |}.

Definition withRespHeader (r : Response) (h : Header) : Response :=
  {| Status := Status r; StatusCode := StatusCode r; RespHeader := h;
     Body := Body r |}.

(** [headerAllCommaSepValues] returns all comma-separated values (each with
    whitespace trimmed) for header [name] in [headers]. *)
Definition headerAllCommaSepValues (headers : Header) (name : string)
  : list string :=
  foldl (fun vals val => (vals ++ (TrimSpace <$> Split val ","))%list)
        [] (default [] (headers !! CanonicalHeaderKey name)).

(** These headers are always hop-by-hop. *)
Definition hopByHopHeaders : gset string :=
  {[ "Connection"; "Keep-Alive"; "Proxy-Authenticate";
     "Proxy-Authorization"; "Te"; "Trailers"; "Transfer-Encoding";
     "Upgrade" ]}.

(** [getEndToEndHeaders]. Go ranges over the header map in an unspecified
    order; the keys come here in the order of [map_to_list]. *)
Definition getEndToEndHeaders (respHeaders : Header) : list string :=
  let hopByHopHeaders :=
    foldl (fun hop extra =>
             if negb (String.eqb (Trim extra " ") "")
             then {[ CanonicalHeaderKey extra ]} ∪ hop else hop)
          hopByHopHeaders
          (Split (Header_Get respHeaders "connection") ",") in
  filter (fun respHeader => respHeader ∉ hopByHopHeaders)
         (fst <$> map_to_list respHeaders).

(** [cacheKey] returns the cache key for [req]. *)
Definition cacheKey (req : Request) : string :=
  if String.eqb (Method req) "GET" then URL req
  else Method req ++ " " ++ URL req.

(** [varyMatches] will return false unless all of the cached values for
    the headers listed in Vary match the new request. *)
Fixpoint varyLoop (cachedResp : Response) (req : Request)
    (headers : list string) : bool :=
  match headers with
  | [] => true
  | header :: rest =>
      let header := CanonicalHeaderKey header in
      if negb (String.eqb header "")
         && negb (String.eqb (Header_Get (ReqHeader req) header)
                    (Header_Get (RespHeader cachedResp)
                       ("X-Varied-" ++ header)))
      then false
      else varyLoop cachedResp req rest
  end.

Definition varyMatches (cachedResp : Response) (req : Request) : bool :=
  varyLoop cachedResp req
    (headerAllCommaSepValues (RespHeader cachedResp) "vary").

(** [cloneRequest] returns a clone of the provided request: a shallow copy
    of the struct and a fresh header map filled key by key. *)
Definition cloneRequest (r : Request) : Request :=
  {| Method := Method r; URL := URL r;
     ReqHeader := foldr (fun ks h => <[ks.1 := ks.2]> h) ∅
                        (map_to_list (ReqHeader r)) |}.

(** Lines 156-177 of [executeRequest]: add validators if the caller has not
    already done so. [req2] is the clone, created on the first write. *)
Definition addValidators (cachedResp : Response) (req : Request)
  : Request :=
  let req2 : option Request := None in
  let etag := Header_Get (RespHeader cachedResp) "etag" in
  let req2 :=
    if negb (String.eqb etag "")
       && String.eqb (Header_Get (ReqHeader req) "etag") ""
    then Some (setReqHeader (cloneRequest req) "if-none-match" etag)
    else req2 in
  let lastModified := Header_Get (RespHeader cachedResp) "last-modified" in
  let req2 :=
    if negb (String.eqb lastModified "")
       && String.eqb (Header_Get (ReqHeader req) "last-modified") ""
    then
      let req2 := match req2 with
                  | None => cloneRequest req
                  | Some r => r
                  end in
      Some (setReqHeader req2 "if-modified-since" lastModified)
    else req2 in
  match req2 with
  | Some req2 => req2
  | None => req
  end.

(** Lines 184-187: the end-to-end headers of the 304 reply replace those of
    the cached response. *)
Definition mergeEndToEnd (cachedResp resp : Response) : Response :=
  withRespHeader cachedResp
    (foldl (fun h header =>
              <[header := default [] (RespHeader resp !! header)]> h)
           (RespHeader cachedResp)
           (getEndToEndHeaders (RespHeader resp))).

(** Lines 229-236: echo the request's value of every header named by the
    response's Vary under [X-Varied-<Header>]. *)
Definition echoVaried (req : Request) (resp : Response) : Response :=
  foldl (fun resp varyKey =>
           let varyKey := CanonicalHeaderKey varyKey in
           let fakeHeader := "X-Varied-" ++ varyKey in
           let reqValue := Header_Get (ReqHeader req) varyKey in
           if negb (String.eqb reqValue "")
           then setRespHeader resp fakeHeader reqValue
           else resp)
        resp (headerAllCommaSepValues (RespHeader resp) "vary").

(** What one call of [executeRequest] does: the [(resp, err)] pair given
    back, the backend afterwards, the requests handed to
    [Transport.RoundTrip], in order, and whether the body of the response
    given back has been wrapped in a [cachingReadCloser]: [Some key] is a
    wrapper whose [OnEOF] stores the response under [key]. *)
Record Exchange (C : Type) := mkExchange {
  returned : result Response;
  backend : C;
  sent : list Request;
  pending : option string
}.
Arguments mkExchange {C} returned backend sent pending.
Arguments returned {C} e.
Arguments backend {C} e.
Arguments sent {C} e.
Arguments pending {C} e.

(** Line 124 of [executeRequest]. *)
Definition cacheableRequest (req : Request) : bool :=
  (String.eqb (Method req) "GET" || String.eqb (Method req) "HEAD")
  && String.eqb (Header_Get (ReqHeader req) "range") "".

Definition CRLF : string :=
  String (ascii_of_nat 13) (String (ascii_of_nat 10) EmptyString).

Definition gatewayTimeoutWire : list byte :=
  list_byte_of_string ("HTTP/1.1 504 Gateway Timeout" ++ CRLF ++ CRLF).

Section Engine.

(** [time.Time] with [time.Parse(time.RFC1123, s)], [t.Sub(u)] and
    [time.ParseDuration]; the process-wide [clock]; the wire format of
    [http.ReadResponse] and [httputil.DumpResponse(resp, true)]. *)
Variable Time : Type.
Variable time_Parse : string -> result Time.
Variable Time_Sub : Time -> Time -> Z.
Variable ParseDuration : string -> result Z.
Variable clock_since : Time -> Z.
Variable ReadResponse : list byte -> Request -> result Response.
Variable DumpResponse : Response -> result (list byte).

(** [Date] parses and returns the value of the Date header. *)
Definition Date (respHeaders : Header) : result Time :=
  let dateHeader := Header_Get respHeaders "date" in
  if String.eqb dateHeader "" then Err ErrNoDateHeader
  else time_Parse dateHeader.

(** One of the two [stale-if-error] blocks of [canStaleOnError], which are
    the same code over the response's and the request's directives:
    [inl b] is [return b], [inr d] goes on with [lifetime = d]. *)
Definition staleIfError (cc : cacheControl) (lifetime : Z) : bool + Z :=
  match cc !! "stale-if-error" with
  | Some staleMaxAge =>
      if negb (String.eqb staleMaxAge "") then
        match ParseDuration (staleMaxAge ++ "s") with
        | Err _ => inl false
        | Ok lifetime => inr lifetime
        end
      else inl true
  | None => inr lifetime
  end.

(** Returns true if either the request or the response includes the
    stale-if-error cache control extension. *)
Definition canStaleOnError (respHeaders reqHeaders : Header) : bool :=
  let respCacheControl := parseCacheControl respHeaders in
  let reqCacheControl := parseCacheControl reqHeaders in
  let lifetime := (-1)%Z in
  match staleIfError respCacheControl lifetime with
  | inl b => b
  | inr lifetime =>
      match staleIfError reqCacheControl lifetime with
      | inl b => b
      | inr lifetime =>
          if (lifetime >=? 0)%Z then
            match Date respHeaders with
            | Err _ => false
            | Ok date =>
                let currentAge := clock_since date in
                if (lifetime >? currentAge)%Z then true else false
            end
          else false
      end
  end.

(** [getFreshness] will return one of fresh/stale/transparent based on the
    cache-control values of the request and the response. The receiver
    [cc] only serves the debug log and is left out. *)
Definition getFreshness (req : Request) (respHeaders : Header)
  : entryFreshness :=
  let reqHeaders := ReqHeader req in
  let respCacheControl := parseCacheControl respHeaders in
  let reqCacheControl := parseCacheControl reqHeaders in
  if hasKey reqCacheControl "no-cache" then transparent
  else if hasKey respCacheControl "no-cache" then stale
  else if hasKey reqCacheControl "only-if-cached" then fresh
  else
    match Date respHeaders with
    | Err _ => stale
    | Ok date =>
        let currentAge := clock_since date in
        let zeroDuration := 0%Z in
        let lifetime := zeroDuration in
        let lifetime :=
          match respCacheControl !! "max-age" with
          | Some maxAge =>
              match ParseDuration (maxAge ++ "s") with
              | Ok d => d
              | Err _ => zeroDuration
              end
          | None =>
              let expiresHeader := Header_Get respHeaders "Expires" in
              if negb (String.eqb expiresHeader "") then
                match time_Parse expiresHeader with
                | Err _ => zeroDuration
                | Ok expires => Time_Sub expires date
                end
              else lifetime
          end in
        let lifetime :=
          match reqCacheControl !! "max-age" with
          | Some maxAge =>
              match ParseDuration (maxAge ++ "s") with
              | Ok d => d
              | Err _ => zeroDuration
              end
          | None => lifetime
          end in
        let currentAge :=
          match reqCacheControl !! "min-fresh" with
          | Some minfresh =>
              match ParseDuration (minfresh ++ "s") with
              | Ok minfreshDuration => wrap64 (currentAge + minfreshDuration)
              | Err _ => currentAge
              end
          | None => currentAge
          end in
        let verdict currentAge :=
          if (lifetime >? currentAge)%Z then fresh else stale in
        match reqCacheControl !! "max-stale" with
        | Some maxstale =>
            if String.eqb maxstale "" then fresh
            else
              match ParseDuration (maxstale ++ "s") with
              | Ok maxstaleDuration =>
                  verdict (wrap64 (currentAge - maxstaleDuration))
              | Err _ => verdict currentAge
              end
        | None => verdict currentAge
        end
    end.

(** [CachedResponse] returns the cached response for [req] if present:
    [Ok None] is Go's [(nil, nil)]. *)
Definition CachedResponse {C : Type} `{Cache C} (c : C) (req : Request)
  : result (option Response) :=
  match Cache_Get c (cacheKey req) with
  | None => Ok None
  | Some cachedVal =>
      match ReadResponse cachedVal req with
      | Ok resp => Ok (Some resp)
      | Err e => Err e
      end
  end.

Definition newGatewayTimeoutResponse (req : Request) : result Response :=
  match ReadResponse gatewayTimeoutWire req with
  | Err _ => Err "httpcache: could not write timeout response"
  | Ok resp => Ok resp
  end.

(** The [OnEOF] closure of line 242, called with the bytes read so far:
    dump a copy of the response whose body is those bytes and store it. *)
Definition storeOnEOF {C : Type} `{Cache C} (cc : CachedClient)
    (cacheKey : string) (resp : Response) (r : list byte) (cache : C) : C :=
  let resp := {| Status := Status resp; StatusCode := StatusCode resp;
                 RespHeader := RespHeader resp; Body := r |} in
  match DumpResponse resp with
  | Ok respBytes => Cache_Set cache cacheKey respBytes (TTL (Options cc))
  | Err _ => cache
  end.

(** Lines 227-264: prepare and store the response if applicable. *)
Definition storeStage {C : Type} `{Cache C} (cc : CachedClient)
    (cacheable : bool) (cacheKey : string) (req : Request)
    (resp : Response) (cache : C) (sent : list Request) : Exchange C :=
  if cacheable
     && canStore (parseCacheControl (ReqHeader req))
                 (parseCacheControl (RespHeader resp))
  then
    let resp := echoVaried req resp in
    if String.eqb (Method req) "GET" then
      (* Delay caching until EOF is reached. *)
      mkExchange (Ok resp) cache sent (Some cacheKey)
    else
      match DumpResponse resp with
      | Ok respBytes =>
          mkExchange (Ok resp)
            (Cache_Set cache cacheKey respBytes (TTL (Options cc))) sent
            None
      | Err _ => mkExchange (Ok resp) cache sent None
      end
  else mkExchange (Ok resp) (Cache_Delete cache cacheKey) sent None.

(** Lines 156-178: what to do with a cached response that was read back.
    [None] is [return cachedResp, nil]; [Some r] goes on to the transport
    with [r], which is [req] or its clone with validators. *)
Definition planRequest (cachedResp : Response) (req : Request)
  : option Request :=
  if varyMatches cachedResp req then
    (* Can only use cached value if the new request doesn't Vary
       significantly *)
    match getFreshness req (RespHeader cachedResp) with
    | fresh => None
    | stale => Some (addValidators cachedResp req)
    | transparent => Some req
    end
  else Some req.

(** Lines 180-209: the remote request when a cached response was read
    back, then the store stage unless the function returns early. *)
Definition remoteWithEntry {C : Type} `{Cache C} (cc : CachedClient)
    (cacheable : bool) (cacheKey : string) (cachedResp : Response)
    (cache : C) (req : Request) : Exchange C :=
  match Transport cc req with
  | Ok resp =>
      if String.eqb (Method req) "GET"
         && (StatusCode resp =? StatusNotModified)%Z
      then
        (* Replace the 304 response with the one from cache, but update
           with some new headers *)
        storeStage cc cacheable cacheKey req
          (mergeEndToEnd cachedResp resp) cache [req]
      else if (StatusCode resp >=? 500)%Z
              && String.eqb (Method req) "GET"
              && canStaleOnError (RespHeader cachedResp) (ReqHeader req)
      then mkExchange (Ok cachedResp) cache [req] None
      else
        let cache :=
          if negb (StatusCode resp =? StatusOK)%Z
          then Cache_Delete cache cacheKey else cache in
        storeStage cc cacheable cacheKey req resp cache [req]
  | Err err =>
      if String.eqb (Method req) "GET"
         && canStaleOnError (RespHeader cachedResp) (ReqHeader req)
      then mkExchange (Ok cachedResp) cache [req] None
      else mkExchange (Err err) (Cache_Delete cache cacheKey) [req] None
  end.

(** Lines 210-225: no cached response to work with. *)
Definition remoteWithoutEntry {C : Type} `{Cache C} (cc : CachedClient)
    (cacheable : bool) (cacheKey : string) (cache : C) (req : Request)
  : Exchange C :=
  let reqCacheControl := parseCacheControl (ReqHeader req) in
  if hasKey reqCacheControl "only-if-cached" then
    match newGatewayTimeoutResponse req with
    | Err err => mkExchange (Err err) cache [] None
    | Ok resp => storeStage cc cacheable cacheKey req resp cache []
    end
  else
    match Transport cc req with
    | Err err => mkExchange (Err err) cache [req] None
    | Ok resp => storeStage cc cacheable cacheKey req resp cache [req]
    end.

Definition executeRequest {C : Type} `{Cache C} (cc : CachedClient)
    (cache : C) (req : Request) : Exchange C :=
  let cacheKey := cacheKey req in
  let cacheable := cacheableRequest req in
  (* Cached response retrieval *)
  let '(cachedResp, cache) :=
    if cacheable then (CachedResponse cache req, cache)
    else
      (* Need to invalidate an existing value *)
      (Ok None, Cache_Delete cache cacheKey) in
  (* Response/request validation and remote request *)
  match cacheable, cachedResp with
  | true, Ok (Some cachedResp) =>
      let cachedResp :=
        if MarkCachedResponses (Options cc)
        then setRespHeader cachedResp XFromCache "1" else cachedResp in
      match planRequest cachedResp req with
      | None => mkExchange (Ok cachedResp) cache [] None
      | Some req =>
          remoteWithEntry cc cacheable cacheKey cachedResp cache req
      end
  | _, _ => remoteWithoutEntry cc cacheable cacheKey cache req
  end.

(** The backend once the caller has read the body given back to
    end-of-stream: a wrapped body runs its [OnEOF] with everything read. *)
Definition drainBody {C : Type} `{Cache C} (cc : CachedClient)
    (ex : Exchange C) : C :=
  match pending ex, returned ex with
  | Some cacheKey, Ok resp =>
      storeOnEOF cc cacheKey resp (Body resp) (backend ex)
  | _, _ => backend ex
  end.

(* --------------------------------------------------------------------- *)
(** *** The freshness rules and the stale-if-error policy as specified     *)
(* --------------------------------------------------------------------- *)

(** A duration given in seconds; a malformed one counts as zero. *)
Definition secondsOrZero (v : string) : Z :=
  match ParseDuration (v ++ "s") with
  | Ok d => d
  | Err _ => 0%Z
  end.

(** A directive's value as a duration, if the directive is there and
    numeric. *)
Definition numericDirective (cc : cacheControl) (name : string)
  : option Z :=
  match cc !! name with
  | Some v =>
      match ParseDuration (v ++ "s") with
      | Ok d => Some d
      | Err _ => None
      end
  | None => None
  end.

(** Steps 6 and 7: the request's max-age replaces the lifetime of the
    response, which is its max-age, else Expires minus Date, else 0. *)
Definition specLifetime (reqCC respCC : cacheControl)
    (respHeaders : Header) (date : Time) : Z :=
  match reqCC !! "max-age" with
  | Some v => secondsOrZero v
  | None =>
      match respCC !! "max-age" with
      | Some v => secondsOrZero v
      | None =>
          if bool_decide (Header_Get respHeaders "Expires" = "") then 0%Z
          else match time_Parse (Header_Get respHeaders "Expires") with
               | Ok expires => Time_Sub expires date
               | Err _ => 0%Z
               end
      end
  end.

(** Steps 5, 8 and 9 as the code computes them: the age, plus a numeric
    min-fresh, minus a numeric max-stale, each a [time.Duration]
    operation, that is, [int64] arithmetic that wraps around. *)
Definition currentAge64 (reqCC : cacheControl) (date : Time) : Z :=
  let age := clock_since date in
  let age := match numericDirective reqCC "min-fresh" with
             | Some d => wrap64 (age + d)
             | None => age
             end in
  match numericDirective reqCC "max-stale" with
  | Some d => wrap64 (age - d)
  | None => age
  end.

(** The ordered evaluation with the code's [int64] durations. *)
Definition getFreshness_ordered (req : Request) (respHeaders : Header)
  : entryFreshness :=
  let reqCC := parseCacheControl (ReqHeader req) in
  let respCC := parseCacheControl respHeaders in
  if bool_decide ("no-cache" ∈ dom reqCC) then transparent
  else if bool_decide ("no-cache" ∈ dom respCC) then stale
  else if bool_decide ("only-if-cached" ∈ dom reqCC) then fresh
  else
    match Date respHeaders with
    | Err _ => stale
    | Ok date =>
        if bool_decide (reqCC !! "max-stale" = Some "") then fresh
        else if bool_decide
                  (specLifetime reqCC respCC respHeaders date
                   > currentAge64 reqCC date)%Z
        then fresh else stale
    end.

(** Steps 5 and 8 as the specification words them: min-fresh is added to
    the age, as a number. *)
Definition ageWithMinFresh (reqCC : cacheControl) (date : Time) : Z :=
  match numericDirective reqCC "min-fresh" with
  | Some d => (clock_since date + d)%Z
  | None => clock_since date
  end.

(** Step 9 as the specification words it: a numeric max-stale is
    subtracted from that, as a number. *)
Definition statedAge (reqCC : cacheControl) (date : Time) : Z :=
  match numericDirective reqCC "max-stale" with
  | Some d => (ageWithMinFresh reqCC date - d)%Z
  | None => ageWithMinFresh reqCC date
  end.

(** The ordered evaluation as the specification states it, steps 1 to
    10, the adjustments of the age being plain additions and
    subtractions. *)
Definition getFreshness_spec (req : Request) (respHeaders : Header)
  : entryFreshness :=
  let reqCC := parseCacheControl (ReqHeader req) in
  let respCC := parseCacheControl respHeaders in
  if bool_decide ("no-cache" ∈ dom reqCC) then transparent
  else if bool_decide ("no-cache" ∈ dom respCC) then stale
  else if bool_decide ("only-if-cached" ∈ dom reqCC) then fresh
  else
    match Date respHeaders with
    | Err _ => stale
    | Ok date =>
        if bool_decide (reqCC !! "max-stale" = Some "") then fresh
        else if bool_decide
                  (specLifetime reqCC respCC respHeaders date
                   > statedAge reqCC date)%Z
        then fresh else stale
    end.

(** The values of an [int64]. *)
Definition int64 (z : Z) : Prop := (- 2 ^ 63 <= z < 2 ^ 63)%Z.

(** What one side's [stale-if-error] says. *)
Inductive staleIfErrorDirective : Type :=
| sie_absent
| sie_valueless
| sie_seconds (d : Z)
| sie_malformed.

Definition staleIfErrorOf (cc : cacheControl) : staleIfErrorDirective :=
  match cc !! "stale-if-error" with
  | None => sie_absent
  | Some v =>
      if bool_decide (v = "") then sie_valueless
      else match ParseDuration (v ++ "s") with
           | Ok d => sie_seconds d
           | Err _ => sie_malformed
           end
  end.

(** The window of a numeric stale-if-error: a non-negative duration, a
    Date that parses, and an age strictly below the duration. *)
Definition withinWindow (respHeaders : Header) (d : Z) : bool :=
  match Date respHeaders with
  | Ok date => bool_decide (0 <= d)%Z
               && bool_decide (clock_since date < d)%Z
  | Err _ => false
  end.

(** The policy in the order the code applies it: the response's
    directive first, then the request's; a numeric value on the request
    replaces one on the response. *)
Definition staleOnErrorPolicy (respHeaders reqHeaders : Header) : bool :=
  match staleIfErrorOf (parseCacheControl respHeaders),
        staleIfErrorOf (parseCacheControl reqHeaders) with
  | sie_valueless, _ => true
  | sie_malformed, _ => false
  | _, sie_valueless => true
  | _, sie_malformed => false
  | _, sie_seconds d => withinWindow respHeaders d
  | sie_seconds d, sie_absent => withinWindow respHeaders d
  | sie_absent, sie_absent => false
  end.

(** The three clauses of the policy read each on its own: a directive
    without value on either side makes the entry eligible; a numeric
    directive on either side allows eligibility only while the age is
    below its value; a directive absent on both sides, a missing Date or a
    malformed duration make it not eligible. *)
Definition staleOnErrorClauses (respHeaders reqHeaders : Header)
    (eligible : bool) : Prop :=
  let respD := staleIfErrorOf (parseCacheControl respHeaders) in
  let reqD := staleIfErrorOf (parseCacheControl reqHeaders) in
  (respD = sie_valueless \/ reqD = sie_valueless -> eligible = true)
  /\ (forall d date, respD = sie_seconds d \/ reqD = sie_seconds d ->
         Date respHeaders = Ok date ->
         eligible = true -> (clock_since date < d)%Z)
  /\ ((respD = sie_absent /\ reqD = sie_absent)
      \/ Header_Get respHeaders "date" = ""
      \/ respD = sie_malformed \/ reqD = sie_malformed ->
      eligible = false).

End Engine.

(* ===================================================================== *)
(** ** io.go: the capturing body wrapper                                  *)
(* ===================================================================== *)

(** The [err] of an [io.Reader]: [nil], the sentinel [io.EOF], or another
    error. *)
Inductive ioError : Type :=
| io_nil
| io_EOF
| io_other (msg : string).

Section CachingReadCloser.

(** The underlying [ReadCloser]: [Src_Read s n] is one call [R.Read(p)]
    with [len(p) = n], giving the bytes [p[:n']] it read, its [err], and
    the stream afterwards. [OnEOF] acts on some outside state [World]. *)
Variable Src : Type.
Variable Src_Read : Src -> nat -> (list byte * ioError) * Src.
Variable World : Type.
Variable OnEOF : list byte -> World -> World.

(** [cachingReadCloser] is a wrapper around ReadCloser R that calls OnEOF
    handler with a full copy of the content read from R when EOF is
    reached. *)
Record cachingReadCloser := mkCachingReadCloser {
  R : Src;
  buf : list byte
}.

Definition cachingReadCloser_Read (r : cachingReadCloser) (lenp : nat)
    (w : World) : (list byte * ioError) * cachingReadCloser * World :=
  let '((pn, err), R') := Src_Read (R r) lenp in
  let buf' := (buf r ++ pn)%list in
  let w' := match err with
            | io_EOF => OnEOF buf' w
            | _ => w
            end in
  ((pn, err), {| R := R'; buf := buf' |}, w').

(** A caller issuing reads with buffers of the given lengths, one after
    the other. *)
Fixpoint readSeq (r : cachingReadCloser) (w : World) (lens : list nat)
  : list (list byte * ioError) * cachingReadCloser * World :=
  match lens with
  | [] => ([], r, w)
  | lenp :: rest =>
      let '(res, r', w') := cachingReadCloser_Read r lenp w in
      let '(ress, r'', w'') := readSeq r' w' rest in
      (res :: ress, r'', w'')
  end.

(** The same reads issued on the underlying stream alone. *)
Fixpoint srcSeq (s : Src) (lens : list nat)
  : list (list byte * ioError) * Src :=
  match lens with
  | [] => ([], s)
  | lenp :: rest =>
      let '(res, s') := Src_Read s lenp in
      let '(ress, s'') := srcSeq s' rest in
      (res :: ress, s'')
  end.

End CachingReadCloser.

Arguments R {Src} c.
Arguments buf {Src} c.
Arguments mkCachingReadCloser {Src} R buf.

Definition isEOF (e : ioError) : bool :=
  match e with io_EOF => true | _ => false end.

(** For a trace of read results and the bytes accumulated before it: the
    accumulated bytes at each result that reports end-of-stream. *)
Fixpoint eofSnapshots (acc : list byte)
    (trace : list (list byte * ioError)) : list (list byte) :=
  match trace with
  | [] => []
  | (pn, err) :: rest =>
      let acc' := (acc ++ pn)%list in
      if isEOF err then acc' :: eofSnapshots acc' rest
      else eofSnapshots acc' rest
  end.

(** A stream over a byte slice, as [bytes.Reader]: [0, io.EOF] once the
    slice is used up, and again on every later read. *)
Definition sliceRead (s : list byte) (lenp : nat)
  : (list byte * ioError) * list byte :=
  match s with
  | [] => (([], io_EOF), [])
  | _ => ((take lenp s, io_nil), drop lenp s)
  end.

(** A completion callback that only records what it is called with. *)
Definition recordCall (b : list byte) (calls : list (list byte))
  : list (list byte) :=
  (calls ++ [b])%list.

(* --------------------------------------------------------------------- *)
(** *** Directive parsing as specified                                    *)
(* --------------------------------------------------------------------- *)

(** The text before the first [c] (all of it if there is none). *)
Fixpoint upTo (c : ascii) (s : string) : string :=
  match s with
  | EmptyString => EmptyString
  | String a r => if Ascii.eqb a c then EmptyString else String a (upTo c r)
  end.

(** The text after the first [c], if there is one. *)
Fixpoint afterFirst (c : ascii) (s : string) : option string :=
  match s with
  | EmptyString => None
  | String a r => if Ascii.eqb a c then Some r else afterFirst c r
  end.

(** The tokens of a header value: split on commas, spaces trimmed, empty
    tokens dropped. *)
Definition tokens (ccHeader : string) : list string :=
  filter (fun t => t <> "") ((fun part => Trim part " ") <$> Split ccHeader ",").

(** A token split once on its first ['=']: the name, and as value all
    that follows, up to the end of the token. *)
Definition splitOnce (t : string) : string * string :=
  match afterFirst "=" t with
  | None => (t, "")
  | Some v => (upTo "=" t, v)
  end.

(** What the code takes from a token: the name with its spaces trimmed,
    and as value the text between the first ['='] and the next one (or the
    end of the token). *)
Definition directiveOf (t : string) : string * string :=
  match afterFirst "=" t with
  | None => (t, "")
  | Some v => (Trim (upTo "=" t) " ", upTo "=" v)
  end.

(** The mapping a header value denotes under a reading of its tokens; of
    two directives of one name the later wins. *)
Definition directives (reading : string -> string * string)
    (ccHeader : string) : cacheControl :=
  list_to_map (reverse (reading <$> tokens ccHeader)).

(** Entering one directive into a mapping. *)
Definition putDirective (cc : cacheControl) (kv : string * string)
  : cacheControl :=
  <[kv.1 := kv.2]> cc.

(** Two requests are cache-equivalent when every backend answers the
    lookups of their keys alike. *)
Definition cacheEquivalent (r1 r2 : Request) : Prop :=
  forall mc : MemoryCache,
    MemoryCache_Get mc (cacheKey r1) = MemoryCache_Get mc (cacheKey r2).

(** Whether a byte sequence begins with a rune that [dropRunes] drops. *)
Definition startsRune (p1 : ascii -> bool) (p2 : ascii -> ascii -> bool)
    (p3 : ascii -> ascii -> ascii -> bool) (l : list ascii) : bool :=
  match l with
  | [] => false
  | c1 :: r1 =>
      p1 c1
      || match r1 with
         | [] => false
         | c2 :: r2 =>
             p2 c1 c2
             || match r2 with
                | [] => false
                | c3 :: _ => p3 c1 c2 c3
                end
         end
  end.

(** The backends that can be reached from [cache] by deleting and setting
    the one key [key]. *)
Inductive changedOnlyAt {C : Type} `{Cache C} (key : string) (cache : C)
  : C -> Prop :=
| changedOnlyAt_same : changedOnlyAt key cache cache
| changedOnlyAt_Delete (c : C) :
    changedOnlyAt key cache c ->
    changedOnlyAt key cache (Cache_Delete c key)
| changedOnlyAt_Set (c : C) (b : list byte) (ttl : Z) :
    changedOnlyAt key cache c ->
    changedOnlyAt key cache (Cache_Set c key b ttl).

(** Lines 143-145 of [executeRequest]: the cached response as it is used
    and given back, with the X-From-Cache marker if the option is set. *)
Definition markedResponse (cc : CachedClient) (cachedResp : Response)
  : Response :=
  if MarkCachedResponses (Options cc)
  then setRespHeader cachedResp XFromCache "1" else cachedResp.

(* ===================================================================== *)
(** ** Stand-ins for the library calls, to run the code on examples       *)
(* ===================================================================== *)

Module Sample.

(** Instants and durations in nanoseconds; a clock that reads [now]. *)
Definition second : Z := 1000000000.
Definition Time_Sub (t u : Z) : Z := (t - u)%Z.
Definition clock_since (now : Z) (d : Z) : Z := (now - d)%Z.

(** [time.Parse(time.RFC1123, s)] on the timestamps the examples use. *)
Definition time_Parse (s : string) : result Z :=
  if String.eqb s "Thu, 01 Jan 1970 00:00:00 GMT" then Ok 0%Z
  else if String.eqb s "Thu, 01 Jan 1970 00:01:00 GMT" then Ok (60 * second)%Z
  else if String.eqb s "Thu, 01 Jan 1970 01:00:00 GMT" then Ok (3600 * second)%Z
  else Err ("parsing time " ++ s).

Definition digitValue (c : ascii) : option Z :=
  let n := nat_of_ascii c in
  if ((48 <=? n)%nat && (n <=? 57)%nat) then Some (Z.of_nat (n - 48))
  else None.

Fixpoint decimal (acc : Z) (s : string) : option Z :=
  match s with
  | EmptyString => Some acc
  | String c r =>
      match digitValue c with
      | Some d => decimal (10 * acc + d)%Z r
      | None => None
      end
  end.

(** [time.ParseDuration] on the inputs the examples use: a non-empty run
    of decimal digits followed by ["s"], within [int64] nanoseconds;
    anything else the examples pass is rejected by Go as well. *)
Definition ParseDuration (s : string) : result Z :=
  match TrimRightFunc (Ascii.eqb "s"%char) s with
  | EmptyString => Err ("time: invalid duration " ++ s)
  | digits =>
      if String.eqb (digits ++ "s") s then
        match decimal 0 digits with
        | Some n =>
            if (n * second <=? 2 ^ 63 - 1)%Z then Ok (n * second)%Z
            else Err ("time: invalid duration " ++ s)
        | None => Err ("time: invalid duration " ++ s)
        end
      else Err ("time: invalid duration " ++ s)
  end.

(** A header map from (canonical key, value) pairs. *)
Definition header (l : list (string * string)) : Header :=
  list_to_map ((fun kv => (kv.1, [kv.2])) <$> l).

(** A plain wire form of a response: status line, one line per header
    value, an empty line, the body. *)
Definition headerLines (h : Header) : string :=
  foldr (fun kvs acc =>
           foldr (fun v acc => kvs.1 ++ ": " ++ v ++ CRLF ++ acc) acc kvs.2)
        "" (map_to_list h).

Definition DumpResponse (resp : Response) : result (list byte) :=
  Ok (list_byte_of_string
        ("HTTP/1.1 " ++ Status resp ++ CRLF ++ headerLines (RespHeader resp)
         ++ CRLF ++ string_of_list_byte (Body resp))).

(** The first line of [s] and what follows its CRLF. *)
Fixpoint cutLine (s : string) : string * string :=
  match s with
  | EmptyString => (EmptyString, EmptyString)
  | String c r =>
      match r with
      | String d r' =>
          if Ascii.eqb c (ascii_of_nat 13) && Ascii.eqb d (ascii_of_nat 10)
          then (EmptyString, r')
          else let '(l, rest) := cutLine r in (String c l, rest)
      | EmptyString => (String c EmptyString, EmptyString)
      end
  end.

Fixpoint readHeaderLines (fuel : nat) (s : string) (h : Header)
  : option (Header * string) :=
  match fuel with
  | O => None
  | S fuel =>
      let '(line, rest) := cutLine s in
      if String.eqb line "" then Some (h, rest)
      else
        match afterFirst ":" line with
        | None => None
        | Some v =>
            let k := CanonicalHeaderKey (upTo ":" line) in
            let v := TrimSpace v in
            readHeaderLines fuel rest
              (<[k := (default [] (h !! k) ++ [v])%list]> h)
        end
  end.

(** [http.ReadResponse] on that plain wire form: the status code is the
    three digits after ["HTTP/1.1 "], the body runs to the end. *)
Definition ReadResponse (b : list byte) (req : Request) : result Response :=
  let '(statusLine, rest) := cutLine (string_of_list_byte b) in
  if String.eqb (substring 0 9 statusLine) "HTTP/1.1 " then
    let status := substring 9 (String.length statusLine - 9) statusLine in
    match decimal 0 (substring 0 3 status),
          readHeaderLines (S (String.length rest)) rest ∅ with
    | Some code, Some (h, body) =>
        Ok {| Status := status; StatusCode := code; RespHeader := h;
              Body := list_byte_of_string body |}
    | _, _ => Err "malformed HTTP response"
    end
  else Err "malformed HTTP response".

(** A transport that answers every request with the same response, and
    one that always fails. *)
Definition always (resp : Response) : Request -> result Response :=
  fun _ => Ok resp.
Definition unreachable : Request -> result Response :=
  fun _ => Err "dial tcp: connection refused".

Definition options : CacheOptions :=
  {| TTL := 0; MarkCachedResponses := false; Debug := false |}.

Definition GET (url : string) (h : list (string * string)) : Request :=
  {| Method := "GET"; URL := url; ReqHeader := header h |}.
Definition HEAD (url : string) (h : list (string * string)) : Request :=
  {| Method := "HEAD"; URL := url; ReqHeader := header h |}.

Definition response (status : string) (code : Z)
    (h : list (string * string)) (body : string) : Response :=
  {| Status := status; StatusCode := code; RespHeader := header h;
     Body := list_byte_of_string body |}.

(** The wire bytes of a response, as stored by an earlier exchange. *)
Definition wire (resp : Response) : list byte :=
  match DumpResponse resp with
  | Ok b => b
  | Err _ => []
  end.

(** [executeRequest] over the in-memory backend with these stand-ins, at
    the instant [now]. *)
Definition run (now : Z) (cc : CachedClient) (cache : MemoryCache)
    (req : Request) : Exchange MemoryCache :=
  executeRequest Z time_Parse Time_Sub ParseDuration (clock_since now)
    ReadResponse DumpResponse cc cache req.

(** A backend holding the wire bytes of [resp] under [key]. *)
Definition stored (key : string) (resp : Response) : MemoryCache :=
  MemoryCache_Set NewMemoryCache key (wire resp) 0.

Definition url : string := "http://example.com/a".
Definition epoch : string := "Thu, 01 Jan 1970 00:00:00 GMT".

Definition notFound : Response := response "404 Not Found" 404 [] "".
Definition gatewayTimeout : Response :=
  response "504 Gateway Timeout" 504 [] "".

(** An entry without Date, hence stale, with an ETag; one that is fresh
    for 60 seconds; one recorded for [Accept-Language: en]. *)
Definition tagged : Response :=
  response "200 OK" 200 [("Etag", "v1")] "hello".
Definition sixty : Response :=
  response "200 OK" 200
    [("Cache-Control", "max-age=60"); ("Date", epoch)] "hello".
Definition english : Response :=
  response "200 OK" 200
    [("Vary", "Accept-Language"); ("X-Varied-Accept-Language", "en")]
    "hello".

Definition client (resp : Response) : CachedClient :=
  {| Transport := always resp; Options := options |}.

(** A client whose transport always fails; a 304 reply with a new ETag;
    an entry that may be served stale on error. *)
Definition offline : CachedClient :=
  {| Transport := unreachable; Options := options |}.
Definition notModified : Response :=
  response "304 Not Modified" 304 [("Etag", "v2")] "".
Definition tolerant : Response :=
  response "200 OK" 200 [("Cache-Control", "stale-if-error")] "hello".
Definition plain : Response := response "200 OK" 200 [] "hello".
Definition POST (url : string) (h : list (string * string)) : Request :=
  {| Method := "POST"; URL := url; ReqHeader := header h |}.

(** A backend whose entry for [url] is not an HTTP response. *)
Definition garbled : MemoryCache :=
  MemoryCache_Set NewMemoryCache url (list_byte_of_string "garbage") 0.

End Sample.

(* ===================================================================== *)
(** * Properties                                                           *)
(* ===================================================================== *)

(** ** Strings *)

Lemma Split_unfold (s : string) (c : ascii) :
  Split s c = upTo c s :: match afterFirst c s with
                          | Some r => Split r c
                          | None => []
                          end.
Proof.
  induction s as [|a r IH]; simpl; [reflexivity|].
  destruct (Ascii.eqb a c); [reflexivity|].
  rewrite IH. reflexivity.
Qed.

Lemma ContainsRune_afterFirst (s : string) (c : ascii) :
  ContainsRune s c = match afterFirst c s with
                     | Some _ => true
                     | None => false
                     end.
Proof.
  induction s as [|a r IH]; simpl; [reflexivity|].
  destruct (Ascii.eqb a c); simpl; [reflexivity|exact IH].
Qed.

Lemma Split_fields_free (s : string) (c : ascii) :
  Forall (fun x => ContainsRune x c = false) (Split s c).
Proof.
  induction s as [|a r IH]; simpl.
  - repeat constructor.
  - destruct (Ascii.eqb a c) eqn:E.
    + constructor; [reflexivity|exact IH].
    + destruct (Split r c) as [|f fs].
      * repeat constructor. simpl. rewrite E. reflexivity.
      * inversion IH; subst. constructor; [|assumption].
        simpl. rewrite E. assumption.
Qed.

Lemma TrimLeftFunc_free cut (s : string) (c : ascii) :
  ContainsRune s c = false -> ContainsRune (TrimLeftFunc cut s) c = false.
Proof.
  induction s as [|a r IH]; simpl; [auto|].
  intros H. apply orb_false_iff in H as [Ha Hr].
  destruct (cut a); [auto|]. simpl. rewrite Ha. exact Hr.
Qed.

Lemma TrimRightFunc_free cut (s : string) (c : ascii) :
  ContainsRune s c = false -> ContainsRune (TrimRightFunc cut s) c = false.
Proof.
  induction s as [|a r IH]; simpl; [auto|].
  intros H. apply orb_false_iff in H as [Ha Hr].
  specialize (IH Hr).
  destruct (TrimRightFunc cut r) as [|b r'].
  - destruct (cut a); simpl; [reflexivity|]. rewrite Ha. reflexivity.
  - simpl in *. rewrite Ha. exact IH.
Qed.

Lemma Trim_free (s : string) (cutset c : ascii) :
  ContainsRune s c = false -> ContainsRune (Trim s cutset) c = false.
Proof.
  intros H. unfold Trim, TrimFunc.
  apply TrimRightFunc_free, TrimLeftFunc_free, H.
Qed.

Lemma upTo_free (s : string) (c d : ascii) :
  ContainsRune s d = false -> ContainsRune (upTo c s) d = false.
Proof.
  induction s as [|a r IH]; simpl; [auto|].
  intros H. apply orb_false_iff in H as [Ha Hr].
  destruct (Ascii.eqb a c); [reflexivity|]. simpl. rewrite Ha. auto.
Qed.

Lemma afterFirst_free (s r : string) (c d : ascii) :
  ContainsRune s d = false -> afterFirst c s = Some r ->
  ContainsRune r d = false.
Proof.
  revert r. induction s as [|a s IH]; simpl; [discriminate|].
  intros r H. apply orb_false_iff in H as [Ha Hs].
  destruct (Ascii.eqb a c); [intros [= <-]; exact Hs|]. apply IH, Hs.
Qed.

(** Trimming a byte that does not occur changes nothing. *)
Lemma Trim_absent (s : string) (c : ascii) :
  ContainsRune s c = false -> Trim s c = s.
Proof.
  intros H. unfold Trim, TrimFunc.
  assert (HL : TrimLeftFunc (Ascii.eqb c) s = s).
  { destruct s as [|a r]; simpl in *; [reflexivity|].
    apply orb_false_iff in H as [Ha _].
    rewrite Ascii.eqb_sym, Ha. reflexivity. }
  rewrite HL. clear HL.
  induction s as [|a r IH]; simpl in *; [reflexivity|].
  apply orb_false_iff in H as [Ha Hr].
  rewrite (IH Hr). destruct r; [|reflexivity].
  rewrite Ascii.eqb_sym, Ha. reflexivity.
Qed.

(** ** The in-memory backend *)

Lemma MemoryCache_Get_Delete (mc : MemoryCache) (key : string) :
  MemoryCache_Get (MemoryCache_Delete mc key) key = None.
Proof. unfold MemoryCache_Get, MemoryCache_Delete. simpl. apply lookup_delete_eq. Qed.

Lemma MemoryCache_Get_Set (mc : MemoryCache) (key : string)
    (resp : list byte) (ttl : Z) :
  MemoryCache_Get (MemoryCache_Set mc key resp ttl) key = Some resp.
Proof. unfold MemoryCache_Get, MemoryCache_Set. simpl. apply lookup_insert_eq. Qed.

(** C10. On the in-memory backend, [Set(key, resp, ttl)] followed by
    [Get(key)] gives back exactly [resp] with [ok = true], whatever [ttl]
    is: two [Set]s that differ only in [ttl] leave the same backend, so no
    later [Get] of any key can tell them apart. *)
Theorem MemoryCache_Set_Get_ignores_ttl (mc : MemoryCache) (key : string)
    (resp : list byte) (ttl : Z) :
  MemoryCache_Get (MemoryCache_Set mc key resp ttl) key = Some resp
  /\ (forall ttl' : Z,
        MemoryCache_Set mc key resp ttl = MemoryCache_Set mc key resp ttl')
  /\ (forall (ttl' : Z) (key' : string),
        MemoryCache_Get (MemoryCache_Set mc key resp ttl) key'
        = MemoryCache_Get (MemoryCache_Set mc key resp ttl') key').
Proof.
  split; [apply MemoryCache_Get_Set|].
  split; reflexivity.
Qed.

(** ** parseCacheControl *)

(** One turn of the loop on a part without commas: skip it if it trims to
    nothing, else enter the directive the code reads from the token. *)
Lemma parsePart_directiveOf (cc : cacheControl) (part : string) :
  ContainsRune part "," = false ->
  parsePart cc part =
    if bool_decide (Trim part " " <> "") then
      putDirective cc (directiveOf (Trim part " "))
    else cc.
Proof.
  intros Hfree. unfold parsePart, putDirective, directiveOf.
  pose proof (Trim_free part " " "," Hfree) as Ht.
  set (t := Trim part " ") in *.
  destruct (String.eqb_spec t "") as [E|E].
  - rewrite bool_decide_eq_false_2; [reflexivity|]. intros H. apply H, E.
  - rewrite bool_decide_eq_true_2 by exact E.
    rewrite ContainsRune_afterFirst, (Split_unfold t "=").
    destruct (afterFirst "=" t) as [v|] eqn:Ev; [|reflexivity].
    simpl. rewrite (Split_unfold v "="). simpl.
    rewrite (Trim_absent (upTo "=" v) ","); [reflexivity|].
    apply upTo_free. eapply afterFirst_free; eassumption.
Qed.

Lemma foldl_parsePart (parts : list string) (cc : cacheControl) :
  Forall (fun p => ContainsRune p "," = false) parts ->
  foldl parsePart cc parts =
    foldl putDirective cc
      (directiveOf <$>
         filter (fun t => t <> "") ((fun part => Trim part " ") <$> parts)).
Proof.
  intros Hall. revert cc.
  induction Hall as [|p parts Hp _ IH]; intros cc; simpl; [reflexivity|].
  rewrite IH, (parsePart_directiveOf cc p Hp).
  rewrite filter_cons.
  destruct (decide (Trim p " " <> "")) as [E|E].
  - rewrite bool_decide_eq_true_2 by exact E. reflexivity.
  - rewrite bool_decide_eq_false_2 by exact E. reflexivity.
Qed.

Lemma foldl_putDirective (ds : list (string * string)) (cc : cacheControl) :
  foldl putDirective cc ds
  = foldr (fun kv m => <[kv.1 := kv.2]> m) cc (reverse ds).
Proof.
  revert cc. induction ds as [|d ds IH]; intros cc; simpl; [reflexivity|].
  rewrite IH, reverse_cons, foldr_app. reflexivity.
Qed.

Lemma parseCacheControl_directives (headers : Header) :
  parseCacheControl headers
  = directives directiveOf (Header_Get headers "Cache-Control").
Proof.
  unfold parseCacheControl, directives, tokens.
  rewrite foldl_parsePart by apply Split_fields_free.
  rewrite foldl_putDirective. reflexivity.
Qed.

Lemma Header_Get_empty (key : string) : Header_Get ∅ key = "".
Proof. unfold Header_Get. rewrite lookup_empty. reflexivity. Qed.

Lemma Header_Get_Set_eq (h : Header) (key value : string) :
  Header_Get (Header_Set h key value) key = value.
Proof. unfold Header_Get, Header_Set. rewrite lookup_insert_eq. reflexivity. Qed.

Lemma Header_Get_Set_ne (h : Header) (key key' value : string) :
  CanonicalHeaderKey key <> CanonicalHeaderKey key' ->
  Header_Get (Header_Set h key value) key' = Header_Get h key'.
Proof.
  intros H. unfold Header_Get, Header_Set.
  rewrite lookup_insert_ne by exact H. reflexivity.
Qed.

(** C9, as the code has it. For every header map, [parseCacheControl]
    yields the mapping denoted by the tokens of the Cache-Control value
    (split on commas, spaces trimmed, empty tokens dropped), where a token
    without ['='] stands for its name with an empty value and a token with
    ['='] stands for the space-trimmed text before the first ['='] with,
    as value, the text between the first ['='] and the next ['='] or the
    end of the token; a later directive of the same name wins. An absent
    header and an empty header both give the empty mapping. *)
Theorem parseCacheControl_tokens (headers : Header) :
  parseCacheControl headers
  = directives directiveOf (Header_Get headers "Cache-Control")
  /\ parseCacheControl ∅ = ∅
  /\ parseCacheControl (Header_Set headers "Cache-Control" "") = ∅.
Proof.
  split; [apply parseCacheControl_directives|].
  split.
  - unfold parseCacheControl. rewrite Header_Get_empty. reflexivity.
  - unfold parseCacheControl. rewrite Header_Get_Set_eq. reflexivity.
Qed.

(** C9, as stated, fails on a token with two ['=']: for the header
    [Cache-Control: a=b=c] the code stores ["b"] under ["a"], while
    splitting the token once on its first ['='] gives ["b=c"]. *)
Lemma parseCacheControl_second_equals_sign :
  let headers : Header := {[ "Cache-Control" := ["a=b=c"] ]} in
  parseCacheControl headers !! "a" = Some "b"
  /\ directives splitOnce (Header_Get headers "Cache-Control") !! "a"
     = Some "b=c"
  /\ parseCacheControl headers
     <> directives splitOnce (Header_Get headers "Cache-Control").
Proof.
  assert (H1 : parseCacheControl {[ "Cache-Control" := ["a=b=c"] ]} !! "a"
               = Some "b") by (vm_compute; reflexivity).
  assert (H2 : directives splitOnce
                 (Header_Get {[ "Cache-Control" := ["a=b=c"] ]}
                    "Cache-Control") !! "a" = Some "b=c")
    by (vm_compute; reflexivity).
  cbv zeta. split; [exact H1|]. split; [exact H2|].
  intros E. rewrite E, H2 in H1. discriminate H1.
Qed.

(** ** cacheKey *)

(** C8, as the code has it. The cache key is the URL alone when the method
    is GET, and the method, a space and the URL for every other method,
    HEAD included; two requests are cache-equivalent if and only if their
    keys are equal. *)
Theorem cacheKey_GET_only (req : Request) :
  cacheKey req
  = (if bool_decide (Method req = "GET") then URL req
     else Method req ++ " " ++ URL req)
  /\ cacheKey {| Method := "HEAD"; URL := URL req;
                 ReqHeader := ReqHeader req |} = "HEAD " ++ URL req
  /\ forall req' : Request,
       cacheEquivalent req req' <-> cacheKey req = cacheKey req'.
Proof.
  split; [|split].
  - unfold cacheKey. destruct (String.eqb_spec (Method req) "GET") as [E|E].
    + rewrite bool_decide_eq_true_2 by exact E. reflexivity.
    + rewrite bool_decide_eq_false_2 by exact E. reflexivity.
  - reflexivity.
  - intros req'. split.
    + intros H.
      specialize (H (MemoryCache_Set NewMemoryCache (cacheKey req) [] 0)).
      rewrite MemoryCache_Get_Set in H.
      unfold MemoryCache_Get, MemoryCache_Set, NewMemoryCache in H.
      simpl in H. symmetry in H.
      apply lookup_insert_Some in H as [[E _]|[_ H]]; [exact E|].
      rewrite lookup_empty in H. discriminate H.
    + intros E mc. rewrite E. reflexivity.
Qed.

(** C8, as stated, fails for HEAD: the key of a HEAD request is not its
    URL alone but ["HEAD "] followed by the URL. *)
Lemma cacheKey_HEAD_is_prefixed :
  cacheKey (Sample.HEAD "http://example.com/a" []) = "HEAD http://example.com/a"
  /\ cacheKey (Sample.HEAD "http://example.com/a" [])
     <> URL (Sample.HEAD "http://example.com/a" []).
Proof. split; [reflexivity|discriminate]. Qed.

(** ** The capturing body wrapper *)

Section CachingReadCloserFacts.

Context {Src World : Type}.
Variable Src_Read : Src -> nat -> (list byte * ioError) * Src.
Variable OnEOF : list byte -> World -> World.

Lemma readSeq_cons (r : cachingReadCloser Src) (w : World) (lenp : nat)
    (rest : list nat) :
  readSeq Src Src_Read World OnEOF r w (lenp :: rest)
  = let step := cachingReadCloser_Read Src Src_Read World OnEOF r lenp w in
    let tail := readSeq Src Src_Read World OnEOF step.1.2 step.2 rest in
    (step.1.1 :: tail.1.1, tail.1.2, tail.2).
Proof.
  simpl.
  destruct (cachingReadCloser_Read Src Src_Read World OnEOF r lenp w)
    as [[res r'] w'].
  simpl.
  destruct (readSeq Src Src_Read World OnEOF r' w' rest) as [[ress r''] w''].
  reflexivity.
Qed.

Lemma srcSeq_cons (s : Src) (lenp : nat) (rest : list nat) :
  srcSeq Src Src_Read s (lenp :: rest)
  = let step := Src_Read s lenp in
    let tail := srcSeq Src Src_Read step.2 rest in
    (step.1 :: tail.1, tail.2).
Proof.
  simpl. destruct (Src_Read s lenp) as [res s'].
  simpl. destruct (srcSeq Src Src_Read s' rest) as [ress s'']. reflexivity.
Qed.

Lemma eofSnapshots_count (acc : list byte)
    (trace : list (list byte * ioError)) :
  length (eofSnapshots acc trace)
  = length (filter (fun res => isEOF res.2 = true) trace).
Proof.
  revert acc. induction trace as [|[pn err] trace IH]; intros acc; simpl.
  - reflexivity.
  - rewrite filter_cons. simpl.
    destruct (isEOF err); simpl.
    + destruct (decide (true = true)); [|congruence].
      simpl. rewrite IH. reflexivity.
    + destruct (decide (false = true)); [discriminate|]. apply IH.
Qed.

(** C6, as the code has it. For every underlying stream, every callback
    and every sequence of reads on the wrapper: each read hands the
    underlying result on unchanged and appends exactly the bytes read to
    the buffer; the callback runs once for every read on which the
    underlying stream reports end-of-stream, in order, each time with all
    bytes accumulated up to and including that read, and on no other
    read. So it runs exactly once when end-of-stream is reported once,
    not at all when it is never reported, and again on every repeated
    end-of-stream read. *)
Theorem cachingReadCloser_OnEOF_every_EOF_read (r : cachingReadCloser Src)
    (w : World) (lens : list nat) :
  let under := srcSeq Src Src_Read (R r) lens in
  readSeq Src Src_Read World OnEOF r w lens
  = (under.1,
     mkCachingReadCloser under.2 (buf r ++ concat (fst <$> under.1)),
     foldl (fun w b => OnEOF b w) w (eofSnapshots (buf r) under.1))
  /\ length (eofSnapshots (buf r) under.1)
     = length (filter (fun res => isEOF res.2 = true) under.1).
Proof.
  cbv zeta. split; [|apply eofSnapshots_count].
  revert r w. induction lens as [|lenp rest IH]; intros r w.
  - simpl. rewrite app_nil_r. destruct r. reflexivity.
  - rewrite readSeq_cons, srcSeq_cons. cbv zeta.
    unfold cachingReadCloser_Read.
    destruct (Src_Read (R r) lenp) as [[pn err] s'] eqn:E.
    cbn [fst snd]. rewrite IH. cbn [R buf fst snd].
    destruct (srcSeq Src Src_Read s' rest) as [ress s''].
    cbn [fst snd fmap list_fmap concat eofSnapshots].
    rewrite <- app_assoc.
    destruct err; reflexivity.
Qed.

End CachingReadCloserFacts.

(** C6, as stated, fails when the caller reads again after end-of-stream:
    over a two-byte slice, three reads see data, end-of-stream and
    end-of-stream again, and the callback runs twice. *)
Lemma OnEOF_runs_again_on_repeated_EOF :
  let r := mkCachingReadCloser ["a"%byte; "b"%byte] [] in
  readSeq (list byte) sliceRead (list (list byte)) recordCall r [] [2; 2; 2]%nat
  = ([(["a"%byte; "b"%byte], io_nil); ([], io_EOF); ([], io_EOF)],
     mkCachingReadCloser [] ["a"%byte; "b"%byte],
     [["a"%byte; "b"%byte]; ["a"%byte; "b"%byte]]).
Proof. reflexivity. Qed.

(** ** Freshness and the stale-if-error policy *)

Lemma hasKey_dom {V : Type} (m : gmap string V) (k : string) :
  hasKey m k = bool_decide (k ∈ dom m).
Proof.
  unfold hasKey. destruct (m !! k) as [v|] eqn:E.
  - rewrite bool_decide_eq_true_2; [reflexivity|].
    apply elem_of_dom. exists v. exact E.
  - rewrite bool_decide_eq_false_2; [reflexivity|].
    intros H. apply elem_of_dom in H as [v Hv]. congruence.
Qed.

Lemma eqb_bool_decide (s t : string) :
  String.eqb s t = bool_decide (s = t).
Proof.
  destruct (String.eqb_spec s t) as [E|E].
  - rewrite bool_decide_eq_true_2 by exact E. reflexivity.
  - rewrite bool_decide_eq_false_2 by exact E. reflexivity.
Qed.

Lemma gtb_bool_decide (a b : Z) : (a >? b)%Z = bool_decide (a > b)%Z.
Proof.
  rewrite Z.gtb_ltb. destruct (Z.ltb_spec b a) as [H|H].
  - rewrite bool_decide_eq_true_2 by lia. reflexivity.
  - rewrite bool_decide_eq_false_2 by lia. reflexivity.
Qed.

(** Case analysis on the tests of strings, orders and parse results left
    in a goal that compares two decision procedures. *)
Ltac split_cases :=
  repeat match goal with
         | |- context [String.eqb ?a ?b] =>
             destruct (String.eqb_spec a b); subst; cbn [negb]
         | |- context [bool_decide (?a = ?b)] =>
             destruct (decide (a = b));
             [rewrite (bool_decide_eq_true_2 (a = b)) by assumption
             |rewrite (bool_decide_eq_false_2 (a = b)) by assumption]
         | |- context [match ?f ?x with Ok _ => _ | Err _ => _ end] =>
             destruct (f x)
         | |- context [(?a >? ?b)%Z] => rewrite (gtb_bool_decide a b)
         | |- context [bool_decide ?P] =>
             destruct (decide P);
             [rewrite (bool_decide_eq_true_2 P) by assumption
             |rewrite (bool_decide_eq_false_2 P) by assumption]
         end;
  cbn [negb] in *; try reflexivity; try congruence; try lia.

Section EngineFacts.

Variable Time : Type.
Variable time_Parse : string -> result Time.
Variable Time_Sub : Time -> Time -> Z.
Variable ParseDuration : string -> result Z.
Variable clock_since : Time -> Z.
Variable ReadResponse : list byte -> Request -> result Response.
Variable DumpResponse : Response -> result (list byte).

(** For every request and cached response headers, whatever the clock
    and the parsers of dates and durations, [getFreshness] is the ordered
    evaluation over [int64] durations: request no-cache gives
    transparent; else response no-cache gives stale; else request
    only-if-cached gives fresh; else a missing or unparseable Date gives
    stale; else a max-stale without value gives fresh; else the result is
    fresh iff lifetime > currentAge, strictly, where the lifetime is the
    request's max-age if present, else the response's max-age, else
    Expires minus Date, else 0 (a malformed value counting as 0), and
    currentAge is the clock's age plus a numeric min-fresh minus a numeric
    max-stale, both operations wrapping around at 64 bits. *)
Lemma getFreshness_ordered_evaluation (req : Request)
    (respHeaders : Header) :
  getFreshness Time time_Parse Time_Sub ParseDuration clock_since
    req respHeaders
  = getFreshness_ordered Time time_Parse Time_Sub ParseDuration clock_since
      req respHeaders.
Proof.
  unfold getFreshness, getFreshness_ordered.
  rewrite !hasKey_dom.
  repeat (case_bool_decide; [reflexivity|]).
  destruct (Date Time time_Parse respHeaders) as [date|e]; [|reflexivity].
  unfold specLifetime, currentAge64, numericDirective, secondsOrZero.
  set (reqCC := parseCacheControl (ReqHeader req)).
  set (respCC := parseCacheControl respHeaders).
  destruct (reqCC !! "max-stale") as [maxstale|];
    destruct (reqCC !! "max-age") as [v|];
    destruct (respCC !! "max-age") as [v'|];
    destruct (reqCC !! "min-fresh") as [mf|];
    repeat match goal with
           | |- context [ParseDuration ?x] => destruct (ParseDuration x)
           end;
    split_cases.
Qed.

(** An [int64] operation whose exact result is an [int64] gives that
    result. *)
Lemma wrap64_int64 (z : Z) : int64 z -> wrap64 z = z.
Proof.
  unfold int64, wrap64. intros Hz.
  rewrite Z.mod_small by lia. lia.
Qed.

(** As long as the age with min-fresh added, and that age with max-stale
    subtracted, are [int64] values, [getFreshness] is the evaluation the
    specification states, with plain additions and subtractions. *)
Theorem getFreshness_as_stated_without_overflow (req : Request)
    (respHeaders : Header) :
  (forall date, Date Time time_Parse respHeaders = Ok date ->
     int64 (ageWithMinFresh Time ParseDuration clock_since
              (parseCacheControl (ReqHeader req)) date)
     /\ int64 (statedAge Time ParseDuration clock_since
                 (parseCacheControl (ReqHeader req)) date)) ->
  getFreshness Time time_Parse Time_Sub ParseDuration clock_since
    req respHeaders
  = getFreshness_spec Time time_Parse Time_Sub ParseDuration clock_since
      req respHeaders.
Proof.
  intros Hrange. rewrite getFreshness_ordered_evaluation.
  unfold getFreshness_ordered, getFreshness_spec.
  destruct (Date Time time_Parse respHeaders) as [date|e]; [|reflexivity].
  destruct (Hrange date eq_refl) as (H1 & H2).
  assert (Hage : currentAge64 Time ParseDuration clock_since
                   (parseCacheControl (ReqHeader req)) date
                 = statedAge Time ParseDuration clock_since
                     (parseCacheControl (ReqHeader req)) date).
  { unfold currentAge64, statedAge, ageWithMinFresh in *.
    destruct (numericDirective ParseDuration _ "min-fresh") as [mf|];
      destruct (numericDirective ParseDuration _ "max-stale") as [ms|];
      rewrite ?(wrap64_int64 _ H1), ?(wrap64_int64 _ H2); reflexivity. }
  rewrite Hage. reflexivity.
Qed.

(** C7, as the code has it. [canStaleOnError] looks at the response's
    stale-if-error first and at the request's second: on the response, a
    directive without value answers eligible at once and a malformed one
    answers not eligible at once; otherwise the same two tests are made on
    the request's directive; otherwise, with a numeric value (the
    request's if it has one, else the response's), the entry is eligible
    iff the value is not negative, the Date header parses, and
    now - Date < value; with the directive absent on both sides it is not
    eligible. *)
Theorem canStaleOnError_ordered_policy (respHeaders reqHeaders : Header) :
  canStaleOnError Time time_Parse ParseDuration clock_since
    respHeaders reqHeaders
  = staleOnErrorPolicy Time time_Parse ParseDuration clock_since
      respHeaders reqHeaders.
Proof.
  unfold canStaleOnError, staleOnErrorPolicy, staleIfError, staleIfErrorOf,
    withinWindow.
  set (respCC := parseCacheControl respHeaders).
  set (reqCC := parseCacheControl reqHeaders).
  destruct (respCC !! "stale-if-error") as [v|];
    destruct (reqCC !! "stale-if-error") as [v'|];
    repeat match goal with
           | |- context [String.eqb ?a ?b] =>
               rewrite (eqb_bool_decide a b)
           end;
    repeat case_bool_decide; subst; cbn [negb]; try reflexivity;
    repeat match goal with
           | |- context [ParseDuration ?x] => destruct (ParseDuration x)
           end;
    try reflexivity;
    destruct (Date Time time_Parse respHeaders) as [date|?];
    rewrite ?gtb_bool_decide;
    repeat match goal with
           | |- context [(?a >=? ?b)%Z] => destruct (Z.geb_spec a b)
           end;
    repeat case_bool_decide; simpl; try reflexivity; try lia.
Qed.

End EngineFacts.

(** C1. The claim's evaluation and the code part on an overflow of the
    min-fresh addition (memcache.go, line 208). The cached response says
    [Cache-Control: max-age=60] and is dated at the epoch; the clock
    reads one hour later; the request says
    [Cache-Control: min-fresh=9223372036]. The lifetime is 60 seconds,
    the age one hour, and adding min-fresh to it gives some 292 years and
    an hour, which is no [int64] number of nanoseconds: as the claim has
    it, 60 seconds is not greater, and the response is stale; the code's
    addition wraps around to a negative duration, and [getFreshness]
    answers fresh, so that the hour-old response is served from the cache
    without a call to the transport. Without the min-fresh directive the
    code answers stale. *)
Theorem getFreshness_min_fresh_overflow :
  let now := (3600 * Sample.second)%Z in
  let req := Sample.GET Sample.url
               [("Cache-Control", "min-fresh=9223372036")] in
  let reqCC := parseCacheControl (ReqHeader req) in
  let respHeaders := RespHeader Sample.sixty in
  Date Z Sample.time_Parse respHeaders = Ok 0%Z
  /\ specLifetime Z Sample.time_Parse Sample.Time_Sub Sample.ParseDuration
       reqCC (parseCacheControl respHeaders) respHeaders 0%Z
     = (60 * Sample.second)%Z
  /\ statedAge Z Sample.ParseDuration (Sample.clock_since now) reqCC 0%Z
     = (9223372036 * Sample.second + 3600 * Sample.second)%Z
  /\ ~ int64 (statedAge Z Sample.ParseDuration (Sample.clock_since now)
                reqCC 0%Z)
  /\ (currentAge64 Z Sample.ParseDuration (Sample.clock_since now) reqCC 0%Z
      < 0)%Z
  /\ getFreshness_spec Z Sample.time_Parse Sample.Time_Sub
       Sample.ParseDuration (Sample.clock_since now) req respHeaders
     = stale
  /\ getFreshness Z Sample.time_Parse Sample.Time_Sub
       Sample.ParseDuration (Sample.clock_since now) req respHeaders
     = fresh
  /\ getFreshness Z Sample.time_Parse Sample.Time_Sub
       Sample.ParseDuration (Sample.clock_since now)
       (Sample.GET Sample.url []) respHeaders
     = stale
  /\ sent (Sample.run now (Sample.client Sample.notFound)
             (Sample.stored Sample.url Sample.sixty) req) = []
  /\ returned (Sample.run now (Sample.client Sample.notFound)
                 (Sample.stored Sample.url Sample.sixty) req)
     = Ok Sample.sixty.
Proof.
  cbv zeta.
  split; [vm_compute; reflexivity|].
  split; [vm_compute; reflexivity|].
  split; [vm_compute; reflexivity|].
  split; [vm_compute; intros [_ H]; discriminate H|].
  split; [vm_compute; reflexivity|].
  split; [vm_compute; reflexivity|].
  split; [vm_compute; reflexivity|].
  split; [vm_compute; reflexivity|].
  split; vm_compute; reflexivity.
Qed.

(** C7, as stated, fails when both sides carry a numeric stale-if-error:
    with [stale-if-error=10] on the response, [stale-if-error=60] on the
    request and an age of 30 seconds the code answers eligible, although
    the age is not below the response's value: the request's value has
    replaced it. *)
Lemma canStaleOnError_request_value_replaces :
  let respHeaders :=
    Sample.header [("Cache-Control", "stale-if-error=10");
                   ("Date", "Thu, 01 Jan 1970 00:00:00 GMT")] in
  let reqHeaders := Sample.header [("Cache-Control", "stale-if-error=60")] in
  let now := (30 * Sample.second)%Z in
  canStaleOnError Z Sample.time_Parse Sample.ParseDuration
    (Sample.clock_since now) respHeaders reqHeaders = true
  /\ ~ staleOnErrorClauses Z Sample.time_Parse Sample.ParseDuration
         (Sample.clock_since now) respHeaders reqHeaders
         (canStaleOnError Z Sample.time_Parse Sample.ParseDuration
            (Sample.clock_since now) respHeaders reqHeaders).
Proof.
  cbv zeta. split; [vm_compute; reflexivity|].
  intros [_ [H _]].
  specialize (H (10 * Sample.second)%Z 0%Z).
  assert (Hlt : (Sample.clock_since (30 * Sample.second) 0
                 < 10 * Sample.second)%Z).
  { apply H.
    - left. vm_compute. reflexivity.
    - vm_compute. reflexivity.
    - vm_compute. reflexivity. }
  vm_compute in Hlt. discriminate Hlt.
Qed.

(** The same two values on swapped sides give the opposite answer at the
    same age. *)
Example canStaleOnError_request_value_shortens :
  canStaleOnError Z Sample.time_Parse Sample.ParseDuration
    (Sample.clock_since (30 * Sample.second))
    (Sample.header [("Cache-Control", "stale-if-error=60");
                    ("Date", "Thu, 01 Jan 1970 00:00:00 GMT")])
    (Sample.header [("Cache-Control", "stale-if-error=10")]) = false.
Proof. vm_compute. reflexivity. Qed.

(** A directive without value on the response is answered before the
    Date header is looked at. *)
Example canStaleOnError_valueless_without_Date :
  canStaleOnError Z Sample.time_Parse Sample.ParseDuration
    (Sample.clock_since 0)
    (Sample.header [("Cache-Control", "stale-if-error")])
    (Sample.header []) = true.
Proof. vm_compute. reflexivity. Qed.

(** A malformed value on the response is answered before the request's
    directive is looked at. *)
Example canStaleOnError_malformed_response_first :
  canStaleOnError Z Sample.time_Parse Sample.ParseDuration
    (Sample.clock_since 0)
    (Sample.header [("Cache-Control", "stale-if-error=abc")])
    (Sample.header [("Cache-Control", "stale-if-error")]) = false.
Proof. vm_compute. reflexivity. Qed.

(** Property 5 of the specification: [stale-if-error=60] on the cached
    response is honoured 30 seconds after its Date and no longer 90
    seconds after it. *)
Example canStaleOnError_sixty_second_window :
  let respHeaders :=
    Sample.header [("Cache-Control", "stale-if-error=60");
                   ("Date", "Thu, 01 Jan 1970 00:00:00 GMT")] in
  canStaleOnError Z Sample.time_Parse Sample.ParseDuration
    (Sample.clock_since (30 * Sample.second)) respHeaders (Sample.header [])
  = true
  /\ canStaleOnError Z Sample.time_Parse Sample.ParseDuration
       (Sample.clock_since (90 * Sample.second)) respHeaders
       (Sample.header []) = false.
Proof. split; vm_compute; reflexivity. Qed.

(** The comparison of [getFreshness] is strict: with [max-age=60] the
    entry is fresh at 59 seconds and stale at 60. *)
Example getFreshness_strict_comparison :
  let respHeaders :=
    Sample.header [("Cache-Control", "max-age=60");
                   ("Date", "Thu, 01 Jan 1970 00:00:00 GMT")] in
  let req := Sample.GET "http://example.com/a" [] in
  getFreshness Z Sample.time_Parse Sample.Time_Sub Sample.ParseDuration
    (Sample.clock_since (59 * Sample.second)) req respHeaders = fresh
  /\ getFreshness Z Sample.time_Parse Sample.Time_Sub Sample.ParseDuration
       (Sample.clock_since (60 * Sample.second)) req respHeaders = stale.
Proof. split; vm_compute; reflexivity. Qed.

(** ** The orchestrator *)

#[export] Instance MemoryCache_lawful : LawfulCache MemoryCache.
Proof.
  split.
  - intros c k v ttl. apply MemoryCache_Get_Set.
  - intros c k. apply MemoryCache_Get_Delete.
Qed.

Lemma cloneRequest_same (r : Request) : cloneRequest r = r.
Proof.
  unfold cloneRequest. destruct r as [m u h]. simpl. f_equal.
  apply (list_to_map_to_list h).
Qed.

(** Every echo header starts with ["X"], canonical or not. *)
Lemma X_Varied_canonical (k : string) :
  exists rest, CanonicalHeaderKey ("X-Varied-" ++ k) = String "X" rest.
Proof.
  unfold CanonicalHeaderKey.
  destruct (allBytes validHeaderFieldByte ("X-Varied-" ++ k)).
  - simpl. eexists. reflexivity.
  - simpl. eexists. reflexivity.
Qed.

Lemma parseCacheControl_ext (h h' : Header) :
  Header_Get h "Cache-Control" = Header_Get h' "Cache-Control" ->
  parseCacheControl h = parseCacheControl h'.
Proof. unfold parseCacheControl. intros ->. reflexivity. Qed.

Lemma echoVaried_fields (req : Request) (resp : Response) :
  Status (echoVaried req resp) = Status resp
  /\ StatusCode (echoVaried req resp) = StatusCode resp
  /\ Body (echoVaried req resp) = Body resp
  /\ Header_Get (RespHeader (echoVaried req resp)) "Cache-Control"
     = Header_Get (RespHeader resp) "Cache-Control".
Proof.
  unfold echoVaried.
  generalize (headerAllCommaSepValues (RespHeader resp) "vary").
  intros keys. revert resp.
  induction keys as [|k keys IH]; intros resp; simpl; [auto|].
  destruct (negb (String.eqb (Header_Get (ReqHeader req)
                                (CanonicalHeaderKey k)) "")).
  - destruct (IH (setRespHeader resp ("X-Varied-" ++ CanonicalHeaderKey k)
                    (Header_Get (ReqHeader req) (CanonicalHeaderKey k))))
      as (H1 & H2 & H3 & H4).
    rewrite H1, H2, H3, H4. simpl. repeat split.
    apply Header_Get_Set_ne.
    destruct (X_Varied_canonical (CanonicalHeaderKey k)) as [rest E].
    rewrite E. vm_compute. discriminate.
  - apply IH.
Qed.

Lemma addValidators_fields (cachedResp : Response) (req : Request) :
  Method (addValidators cachedResp req) = Method req
  /\ URL (addValidators cachedResp req) = URL req
  /\ forall key : string,
       CanonicalHeaderKey key <> "If-None-Match" ->
       CanonicalHeaderKey key <> "If-Modified-Since" ->
       Header_Get (ReqHeader (addValidators cachedResp req)) key
       = Header_Get (ReqHeader req) key.
Proof.
  unfold addValidators. rewrite cloneRequest_same.
  destruct (negb (String.eqb (Header_Get (RespHeader cachedResp) "etag") "")
            && String.eqb (Header_Get (ReqHeader req) "etag") "");
    destruct (negb (String.eqb
                      (Header_Get (RespHeader cachedResp) "last-modified") "")
              && String.eqb (Header_Get (ReqHeader req) "last-modified") "");
    simpl; repeat split; intros key H1 H2;
    rewrite ?Header_Get_Set_ne; auto.
Qed.

Section OrchestratorFacts.

Variable Time : Type.
Variable time_Parse : string -> result Time.
Variable Time_Sub : Time -> Time -> Z.
Variable ParseDuration : string -> result Z.
Variable clock_since : Time -> Z.
Variable ReadResponse : list byte -> Request -> result Response.
Variable DumpResponse : Response -> result (list byte).
Context {C : Type} `{Cache C}.

Local Abbreviation storeStage' := (storeStage DumpResponse).
Local Abbreviation executeRequest' :=
  (executeRequest Time time_Parse Time_Sub ParseDuration clock_since
     ReadResponse DumpResponse).
Local Abbreviation remoteWithEntry' :=
  (remoteWithEntry Time time_Parse ParseDuration clock_since DumpResponse).
Local Abbreviation remoteWithoutEntry' :=
  (remoteWithoutEntry ReadResponse DumpResponse).
Local Abbreviation canStaleOnError' :=
  (canStaleOnError Time time_Parse ParseDuration clock_since).
Local Abbreviation planRequest' :=
  (planRequest Time time_Parse Time_Sub ParseDuration clock_since).

(** The store stage: it hands back the response it is given, with the
    same status, body and Cache-Control, and either deletes the key (no
    storing allowed), or leaves the backend alone and wraps the body
    (GET), or stores the dump at once (other methods). *)
Lemma storeStage_cases (cc : CachedClient) (cacheable : bool)
    (key : string) (req : Request) (resp : Response) (cache : C)
    (out : list Request) :
  let ex := storeStage' cc cacheable key req resp cache out in
  let allowed := cacheable && canStore (parseCacheControl (ReqHeader req))
                                (parseCacheControl (RespHeader resp)) in
  sent ex = out
  /\ exists r,
       returned ex = Ok r
       /\ Status r = Status resp /\ StatusCode r = StatusCode resp
       /\ Body r = Body resp
       /\ Header_Get (RespHeader r) "Cache-Control"
          = Header_Get (RespHeader resp) "Cache-Control"
       /\ (r = resp \/ r = echoVaried req resp)
       /\ ((allowed = false /\ backend ex = Cache_Delete cache key
            /\ pending ex = None)
           \/ (allowed = true /\ Method req = "GET"
               /\ backend ex = cache /\ pending ex = Some key)
           \/ (allowed = true /\ Method req <> "GET" /\ pending ex = None
               /\ ((exists b, DumpResponse r = Ok b
                     /\ backend ex
                        = Cache_Set cache key b (TTL (Options cc)))
                   \/ (exists e, DumpResponse r = Err e
                        /\ backend ex = cache)))).
Proof.
  cbv zeta. unfold storeStage.
  destruct (cacheable && canStore (parseCacheControl (ReqHeader req))
                           (parseCacheControl (RespHeader resp))).
  - destruct (echoVaried_fields req resp) as (E1 & E2 & E3 & E4).
    destruct (String.eqb_spec (Method req) "GET") as [Hm|Hm].
    + split; [reflexivity|]. exists (echoVaried req resp).
      do 6 (split; [auto|]). right. left. auto.
    + destruct (DumpResponse (echoVaried req resp)) as [b|e] eqn:Hd;
        (split; [reflexivity|]); exists (echoVaried req resp);
        do 6 (split; [auto|]); right; right; do 3 (split; [auto|]).
      * left. exists b. auto.
      * right. exists e. auto.
  - split; [reflexivity|]. exists resp.
    do 6 (split; [auto|]). left. auto.
Qed.

(** C4, as the code has it. For every request whose Cache-Control carries
    only-if-cached and that is not cacheable, or for which no entry under
    its key can be read back from storage (there is none, or it does not
    deserialize), the engine makes no transport call and returns the
    response synthesized from the 504 Gateway Timeout status line, with
    status 504 and no body. *)
Theorem only_if_cached_without_readable_entry (cc : CachedClient)
    (cache : C) (req : Request) (timeout : Response) :
  hasKey (parseCacheControl (ReqHeader req)) "only-if-cached" = true ->
  (cacheableRequest req = false
   \/ forall cachedResp,
        CachedResponse ReadResponse cache req <> Ok (Some cachedResp)) ->
  ReadResponse gatewayTimeoutWire req = Ok timeout ->
  StatusCode timeout = 504%Z ->
  Body timeout = [] ->
  sent (executeRequest' cc cache req) = []
  /\ exists resp,
       returned (executeRequest' cc cache req) = Ok resp
       /\ StatusCode resp = 504%Z /\ Body resp = [].
Proof.
  intros Hoic Hno Hread Hcode Hbody.
  assert (Hgo : forall cacheable cache',
             sent (remoteWithoutEntry' cc cacheable (cacheKey req) cache' req)
             = []
             /\ exists resp,
                  returned (remoteWithoutEntry' cc cacheable (cacheKey req)
                              cache' req) = Ok resp
                  /\ StatusCode resp = 504%Z /\ Body resp = []).
  { intros cacheable cache'. unfold remoteWithoutEntry.
    rewrite Hoic. unfold newGatewayTimeoutResponse. rewrite Hread.
    destruct (storeStage_cases cc cacheable (cacheKey req) req timeout
                cache' []) as (Hs & r & Hr & _ & Hc & Hb & _).
    split; [exact Hs|]. exists r. rewrite Hc, Hb. auto. }
  unfold executeRequest.
  destruct (cacheableRequest req) eqn:Hc.
  - destruct Hno as [Hno|Hno]; [discriminate|].
    destruct (CachedResponse ReadResponse cache req) as [[c|]|e] eqn:Hcr.
    + exfalso. apply (Hno c). reflexivity.
    + apply Hgo.
    + apply Hgo.
  - apply Hgo.
Qed.


Lemma planRequest_request (cachedResp : Response) (req req' : Request) :
  planRequest' cachedResp req = Some req' ->
  Method req' = Method req /\ URL req' = URL req
  /\ Header_Get (ReqHeader req') "Cache-Control"
     = Header_Get (ReqHeader req) "Cache-Control".
Proof.
  unfold planRequest.
  assert (Hadd : Method (addValidators cachedResp req) = Method req
                 /\ URL (addValidators cachedResp req) = URL req
                 /\ Header_Get (ReqHeader (addValidators cachedResp req))
                      "Cache-Control"
                    = Header_Get (ReqHeader req) "Cache-Control").
  { destruct (addValidators_fields cachedResp req) as (Hm & Hu & Hh).
    split; [exact Hm|]. split; [exact Hu|].
    apply Hh; vm_compute; discriminate. }
  destruct (varyMatches cachedResp req);
    [destruct (getFreshness _ _ _ _ _ req (RespHeader cachedResp))|];
    intros [= <-]; auto.
Qed.

Lemma remoteWithEntry_sent (cc : CachedClient) (cacheable : bool)
    (key : string) (cachedResp : Response) (cache : C) (req : Request) :
  sent (remoteWithEntry' cc cacheable key cachedResp cache req) = [req].
Proof.
  unfold remoteWithEntry.
  destruct (Transport cc req) as [resp|e].
  - destruct (String.eqb (Method req) "GET"
              && (StatusCode resp =? StatusNotModified)%Z).
    + apply storeStage_cases.
    + destruct ((StatusCode resp >=? 500)%Z && String.eqb (Method req) "GET"
                && canStaleOnError' (RespHeader cachedResp) (ReqHeader req)).
      * reflexivity.
      * apply storeStage_cases.
  - destruct (String.eqb (Method req) "GET"
              && canStaleOnError' (RespHeader cachedResp) (ReqHeader req));
      reflexivity.
Qed.




Lemma canStaleOnError_ext (h h' q q' : Header) :
  Header_Get h "Cache-Control" = Header_Get h' "Cache-Control" ->
  Header_Get h "date" = Header_Get h' "date" ->
  Header_Get q "Cache-Control" = Header_Get q' "Cache-Control" ->
  canStaleOnError' h q = canStaleOnError' h' q'.
Proof.
  intros Hcc Hd Hq. unfold canStaleOnError, Date, parseCacheControl.
  rewrite Hcc, Hd, Hq. reflexivity.
Qed.

Lemma marked_canStaleOnError (cc : CachedClient) (c : Response)
    (q : Header) :
  canStaleOnError'
    (RespHeader (if MarkCachedResponses (Options cc)
                 then setRespHeader c XFromCache "1" else c)) q
  = canStaleOnError' (RespHeader c) q.
Proof.
  destruct (MarkCachedResponses (Options cc)); [|reflexivity].
  apply canStaleOnError_ext; [| |reflexivity];
    apply Header_Get_Set_ne; vm_compute; discriminate.
Qed.

Lemma storeOnEOF_whole_body (cc : CachedClient) (key : string)
    (resp : Response) (cache : C) :
  storeOnEOF DumpResponse cc key resp (Body resp) cache
  = match DumpResponse resp with
    | Ok b => Cache_Set cache key b (TTL (Options cc))
    | Err _ => cache
    end.
Proof. unfold storeOnEOF. destruct resp. reflexivity. Qed.

(** C2, as the code has it. For every cacheable request for which a
    stored entry was read back and whose transport call then gave a
    non-200 response, other than a 304 to a GET or a 5xx to a GET covered
    by stale-if-error: the entry that was stored under the request's key
    is deleted and the response handed back is the transport's, with its
    status and body unchanged. The non-200 response then passes the store
    stage like any other. With no-store on the request or the response
    it is handed back as it is, the key is empty and stays empty. Without
    no-store it is handed back with the X-Varied echoes added and is
    stored under the key if it can be dumped: for HEAD at once; for GET
    the key is empty at the return and holds the dump once the caller has
    read the body to its end. *)
Theorem non_200_replaces_stored_entry (Hlaw : LawfulCache C)
    (cc : CachedClient) (cache : C) (req req' : Request)
    (cachedResp tr : Response) :
  cacheableRequest req = true ->
  CachedResponse ReadResponse cache req = Ok (Some cachedResp) ->
  sent (executeRequest' cc cache req) = [req'] ->
  Transport cc req' = Ok tr ->
  StatusCode tr <> StatusOK ->
  ~ (Method req = "GET" /\ StatusCode tr = StatusNotModified) ->
  ~ (Method req = "GET" /\ (500 <= StatusCode tr)%Z
     /\ canStaleOnError' (RespHeader cachedResp) (ReqHeader req) = true) ->
  let ex := executeRequest' cc cache req in
  let key := cacheKey req in
  let storing := canStore (parseCacheControl (ReqHeader req))
                   (parseCacheControl (RespHeader tr)) in
  let dumped (resp : Response) :=
    match DumpResponse resp with
    | Ok b => Some b
    | Err _ => None
    end in
  exists resp,
    returned ex = Ok resp
    /\ Status resp = Status tr /\ StatusCode resp = StatusCode tr
    /\ Body resp = Body tr
    /\ resp = (if storing then echoVaried req' tr else tr)
    /\ (Method req = "GET" \/ Method req = "HEAD")
    /\ if storing then
         if String.eqb (Method req) "GET" then
           Cache_Get (backend ex) key = None
           /\ pending ex = Some key
           /\ Cache_Get (drainBody DumpResponse cc ex) key = dumped resp
         else
           Cache_Get (backend ex) key = dumped resp
           /\ pending ex = None
           /\ drainBody DumpResponse cc ex = backend ex
       else
         Cache_Get (backend ex) key = None
         /\ pending ex = None
         /\ drainBody DumpResponse cc ex = backend ex.
Proof.
  intros Hc Hcr Hsent Htr Hcode H304 Hfallback. cbv zeta.
  assert (Hex : exists r,
            r = req'
            /\ Method r = Method req
            /\ Header_Get (ReqHeader r) "Cache-Control"
               = Header_Get (ReqHeader req) "Cache-Control"
            /\ executeRequest' cc cache req
               = remoteWithEntry' cc true (cacheKey req)
                   (if MarkCachedResponses (Options cc)
                    then setRespHeader cachedResp XFromCache "1"
                    else cachedResp) cache r).
  { revert Hsent. unfold executeRequest. rewrite Hc, Hcr.
    destruct (planRequest' _ req) as [r|] eqn:Hplan;
      [|simpl; discriminate].
    rewrite remoteWithEntry_sent. intros [= ->].
    destruct (planRequest_request _ _ _ Hplan) as (Hm & _ & Hcc).
    exists req'. auto. }
  destruct Hex as (r & -> & Hm & Hcc & Hex). rewrite Hex. clear Hex.
  set (c' := if MarkCachedResponses (Options cc)
             then setRespHeader cachedResp XFromCache "1" else cachedResp).
  unfold remoteWithEntry. rewrite Htr, Hm.
  assert (E1 : String.eqb (Method req) "GET"
               && (StatusCode tr =? StatusNotModified)%Z = false).
  { destruct (String.eqb_spec (Method req) "GET") as [Hg|Hg];
      [|reflexivity].
    destruct (Z.eqb_spec (StatusCode tr) StatusNotModified) as [Hs|Hs];
      [|reflexivity].
    exfalso. apply H304. auto. }
  assert (E2 : (StatusCode tr >=? 500)%Z && String.eqb (Method req) "GET"
               && canStaleOnError' (RespHeader c') (ReqHeader req') = false).
  { destruct (Z.geb_spec (StatusCode tr) 500) as [Hs|Hs]; [|reflexivity].
    destruct (String.eqb_spec (Method req) "GET") as [Hg|Hg];
      [|reflexivity].
    simpl. unfold c'. rewrite marked_canStaleOnError.
    rewrite (canStaleOnError_ext _ (RespHeader cachedResp) _
               (ReqHeader req) eq_refl eq_refl Hcc).
    destruct (canStaleOnError' (RespHeader cachedResp) (ReqHeader req))
      eqn:Hs'; [|reflexivity].
    exfalso. apply Hfallback. auto. }
  assert (E3 : negb (StatusCode tr =? StatusOK)%Z = true).
  { destruct (Z.eqb_spec (StatusCode tr) StatusOK); [contradiction|].
    reflexivity. }
  assert (Hmethod : Method req = "GET" \/ Method req = "HEAD").
  { unfold cacheableRequest in Hc.
    destruct (String.eqb_spec (Method req) "GET"); [auto|].
    destruct (String.eqb_spec (Method req) "HEAD"); [auto|].
    discriminate Hc. }
  rewrite E1, E2, E3. cbv zeta.
  unfold storeStage, drainBody.
  rewrite (parseCacheControl_ext _ _ Hcc), Hm. simpl andb.
  destruct (echoVaried_fields req' tr) as (F1 & F2 & F3 & _).
  destruct (canStore (parseCacheControl (ReqHeader req))
              (parseCacheControl (RespHeader tr))).
  - destruct (String.eqb (Method req) "GET").
    + exists (echoVaried req' tr). simpl.
      do 6 (split; [auto|]).
      split; [apply Cache_Get_Delete|]. split; [reflexivity|].
      rewrite storeOnEOF_whole_body.
      destruct (DumpResponse (echoVaried req' tr));
        [apply Cache_Get_Set|apply Cache_Get_Delete].
    + exists (echoVaried req' tr).
      destruct (DumpResponse (echoVaried req' tr)) as [b|e]; simpl;
        do 6 (split; [auto|]).
      * split; [apply Cache_Get_Set|auto].
      * split; [apply Cache_Get_Delete|auto].
  - exists tr. simpl. do 6 (split; [auto|]).
    split; [apply Cache_Get_Delete|auto].
Qed.

(** The validator is added when the cached entry has an ETag and the
    request has no header named Etag. *)
Lemma addValidators_if_none_match (cachedResp : Response) (req : Request) :
  Header_Get (RespHeader cachedResp) "etag" <> "" ->
  Header_Get (ReqHeader req) "etag" = "" ->
  Header_Get (ReqHeader (addValidators cachedResp req)) "if-none-match"
  = Header_Get (RespHeader cachedResp) "etag".
Proof.
  intros He Hr. unfold addValidators. rewrite cloneRequest_same, Hr.
  destruct (String.eqb_spec (Header_Get (RespHeader cachedResp) "etag") "")
    as [?|_]; [contradiction|].
  simpl.
  destruct (negb (String.eqb
                    (Header_Get (RespHeader cachedResp) "last-modified") "")
            && String.eqb (Header_Get (ReqHeader req) "last-modified") "");
    simpl.
  - rewrite Header_Get_Set_ne by (vm_compute; discriminate).
    apply Header_Get_Set_eq.
  - apply Header_Get_Set_eq.
Qed.

(** A request that carries a header named Etag gets no If-None-Match,
    whether or not it has set one itself. *)
Lemma addValidators_request_Etag (cachedResp : Response) (req : Request) :
  Header_Get (ReqHeader req) "etag" <> "" ->
  Header_Get (ReqHeader (addValidators cachedResp req)) "if-none-match"
  = Header_Get (ReqHeader req) "if-none-match".
Proof.
  intros Hr. unfold addValidators. rewrite cloneRequest_same.
  destruct (String.eqb_spec (Header_Get (ReqHeader req) "etag") "")
    as [?|_]; [contradiction|].
  rewrite andb_false_r.
  destruct (negb (String.eqb
                    (Header_Get (RespHeader cachedResp) "last-modified") "")
            && String.eqb (Header_Get (ReqHeader req) "last-modified") "");
    simpl; [|reflexivity].
  apply Header_Get_Set_ne. vm_compute. discriminate.
Qed.

End OrchestratorFacts.

(** ** The orchestrator on concrete exchanges *)

(** C4, as stated, fails when an entry is read back but cannot be used:
    the entry was recorded for [Accept-Language: en], the request asks
    with only-if-cached for [fr]; the Vary record does not match, and the
    request goes to the transport instead of being answered with 504. *)
Lemma only_if_cached_vary_mismatch_goes_out :
  let req := Sample.GET Sample.url
               [("Cache-Control", "only-if-cached");
                ("Accept-Language", "fr")] in
  let ex := Sample.run 0 (Sample.client Sample.notFound)
              (Sample.stored Sample.url Sample.english) req in
  hasKey (parseCacheControl (ReqHeader req)) "only-if-cached" = true
  /\ varyMatches Sample.english req = false
  /\ sent ex = [req]
  /\ exists resp, returned ex = Ok resp /\ StatusCode resp = 404%Z.
Proof.
  cbv zeta. split; [vm_compute; reflexivity|].
  split; [vm_compute; reflexivity|].
  split; [vm_compute; reflexivity|].
  eexists. split; [vm_compute; reflexivity|reflexivity].
Qed.

Lemma only_if_cached_without_readable_entry_witness :
  let req := Sample.GET Sample.url [("Cache-Control", "only-if-cached")] in
  let ex := Sample.run 0 (Sample.client Sample.notFound) NewMemoryCache req in
  sent ex = []
  /\ exists resp,
       returned ex = Ok resp /\ StatusCode resp = 504%Z /\ Body resp = [].
Proof.
  cbv zeta.
  apply (only_if_cached_without_readable_entry Z Sample.time_Parse
           Sample.Time_Sub Sample.ParseDuration (Sample.clock_since 0)
           Sample.ReadResponse Sample.DumpResponse
           (Sample.client Sample.notFound) NewMemoryCache
           (Sample.GET Sample.url [("Cache-Control", "only-if-cached")])
           Sample.gatewayTimeout).
  - vm_compute. reflexivity.
  - right. intros cachedResp. vm_compute. discriminate.
  - vm_compute. reflexivity.
  - reflexivity.
  - reflexivity.
Defined.



(** C2, as stated, fails for HEAD: a stale entry is stored, the transport
    answers the revalidation with 404, the old entry is deleted, and the
    404 itself is stored under the key before the function returns. *)
Lemma non_200_HEAD_response_is_stored :
  let req := Sample.HEAD Sample.url [] in
  let ex := Sample.run 0 (Sample.client Sample.notFound)
              (Sample.stored ("HEAD " ++ Sample.url) Sample.tagged) req in
  cacheableRequest req = true
  /\ returned ex = Ok Sample.notFound
  /\ pending ex = None
  /\ Cache_Get (backend ex) (cacheKey req)
     = Some (Sample.wire Sample.notFound).
Proof. cbv zeta. repeat split; vm_compute; reflexivity. Qed.

(** The same holds without any entry beforehand. *)
Example non_200_HEAD_response_is_stored_on_miss :
  let req := Sample.HEAD Sample.url [] in
  let ex := Sample.run 0 (Sample.client Sample.notFound) NewMemoryCache req in
  returned ex = Ok Sample.notFound
  /\ Cache_Get (backend ex) (cacheKey req)
     = Some (Sample.wire Sample.notFound).
Proof. cbv zeta. repeat split; vm_compute; reflexivity. Qed.

(** For GET the 404 is stored once the body has been read to its end. *)
Example non_200_GET_response_is_stored_at_EOF :
  let req := Sample.GET Sample.url [] in
  let ex := Sample.run 0 (Sample.client Sample.notFound)
              (Sample.stored Sample.url Sample.tagged) req in
  returned ex = Ok Sample.notFound
  /\ Cache_Get (backend ex) (cacheKey req) = None
  /\ pending ex = Some (cacheKey req)
  /\ Cache_Get (drainBody Sample.DumpResponse
                  (Sample.client Sample.notFound) ex) (cacheKey req)
     = Some (Sample.wire Sample.notFound).
Proof. cbv zeta. repeat split; vm_compute; reflexivity. Qed.

Lemma non_200_replaces_stored_entry_witness :
  let req := Sample.HEAD Sample.url [] in
  let cache := Sample.stored ("HEAD " ++ Sample.url) Sample.tagged in
  let ex := Sample.run 0 (Sample.client Sample.notFound) cache req in
  exists resp,
    returned ex = Ok resp
    /\ Status resp = "404 Not Found" /\ StatusCode resp = 404%Z
    /\ Body resp = []
    /\ resp = Sample.notFound
    /\ Cache_Get (backend ex) (cacheKey req)
       = Some (Sample.wire Sample.notFound)
    /\ pending ex = None.
Proof.
  cbv zeta.
  destruct (non_200_replaces_stored_entry Z Sample.time_Parse
              Sample.Time_Sub Sample.ParseDuration (Sample.clock_since 0)
              Sample.ReadResponse Sample.DumpResponse MemoryCache_lawful
              (Sample.client Sample.notFound)
              (Sample.stored ("HEAD " ++ Sample.url) Sample.tagged)
              (Sample.HEAD Sample.url [])
              (Sample.HEAD Sample.url [("If-None-Match", "v1")])
              Sample.tagged Sample.notFound)
    as (resp & Hr & Hst & Hsc & Hb & Hid & _ & Hstore).
  - vm_compute. reflexivity.
  - vm_compute. reflexivity.
  - vm_compute. reflexivity.
  - reflexivity.
  - vm_compute. discriminate.
  - intros [Hm _]. vm_compute in Hm. discriminate Hm.
  - intros [Hm _]. vm_compute in Hm. discriminate Hm.
  - vm_compute in Hid. subst resp. exists Sample.notFound.
    split; [exact Hr|]. do 4 (split; [reflexivity|]).
    vm_compute in Hstore. destruct Hstore as (Hget & Hp & _).
    split; [vm_compute; exact Hget|exact Hp].
Defined.

(** C5 at a request that carries a header named Etag and no
    If-None-Match: the stored entry is stale and has the ETag ["v1"], and
    the request goes to the transport as it came, without If-None-Match. *)
Lemma revalidation_without_If_None_Match :
  let req := Sample.GET Sample.url [("Etag", "x")] in
  let ex := Sample.run 0 (Sample.client Sample.notFound)
              (Sample.stored Sample.url Sample.tagged) req in
  getFreshness Z Sample.time_Parse Sample.Time_Sub Sample.ParseDuration
    (Sample.clock_since 0) req (RespHeader Sample.tagged) = stale
  /\ Header_Get (RespHeader Sample.tagged) "ETag" = "v1"
  /\ Header_Get (ReqHeader req) "If-None-Match" = ""
  /\ sent ex = [req].
Proof. cbv zeta. repeat split; vm_compute; reflexivity. Qed.

(** The other side of the same test: an If-None-Match set by the caller
    is overwritten with the cached ETag. *)
Example revalidation_overwrites_If_None_Match :
  let req := Sample.GET Sample.url [("If-None-Match", "mine")] in
  let ex := Sample.run 0 (Sample.client Sample.notFound)
              (Sample.stored Sample.url Sample.tagged) req in
  sent ex = [Sample.GET Sample.url [("If-None-Match", "v1")]].
Proof. vm_compute. reflexivity. Qed.

(* ===================================================================== *)
(** * Further properties of the code                                       *)
(* ===================================================================== *)

(** ** The in-memory backend *)

(** [Delete] removes the entry of its key and of no other key; deleting
    twice is deleting once, and deleting a key that has no entry leaves
    the backend as it is. *)
Theorem MemoryCache_Delete_only_its_key (mc : MemoryCache) (key : string) :
  MemoryCache_Get (MemoryCache_Delete mc key) key = None
  /\ (forall key', key' <> key ->
        MemoryCache_Get (MemoryCache_Delete mc key) key'
        = MemoryCache_Get mc key')
  /\ MemoryCache_Delete (MemoryCache_Delete mc key) key
     = MemoryCache_Delete mc key
  /\ (MemoryCache_Get mc key = None -> MemoryCache_Delete mc key = mc).
Proof.
  unfold MemoryCache_Get, MemoryCache_Delete. simpl.
  split; [apply lookup_delete_eq|].
  split; [intros key' Hne; apply lookup_delete_ne; congruence|].
  split.
  - f_equal. apply delete_delete_eq.
  - intros Hnone. destruct mc as [m]. simpl in *. f_equal.
    apply delete_id. exact Hnone.
Qed.

Lemma MemoryCache_Delete_only_its_key_witness :
  MemoryCache_Delete NewMemoryCache "k" = NewMemoryCache.
Proof.
  apply (MemoryCache_Delete_only_its_key NewMemoryCache "k").
  reflexivity.
Defined.

(** A new backend has no entry; [Set] replaces what was stored under its
    key (the last write wins) and leaves every other key alone. *)
Theorem MemoryCache_Set_last_write_wins (mc : MemoryCache)
    (key : string) (old new : list byte) (ttl ttl' : Z) :
  (forall key', MemoryCache_Get NewMemoryCache key' = None)
  /\ MemoryCache_Set (MemoryCache_Set mc key old ttl) key new ttl'
     = MemoryCache_Set mc key new ttl'
  /\ (forall key', key' <> key ->
        MemoryCache_Get (MemoryCache_Set mc key new ttl) key'
        = MemoryCache_Get mc key')
  /\ MemoryCache_Get (MemoryCache_Delete (MemoryCache_Set mc key new ttl) key)
       key = None.
Proof.
  unfold MemoryCache_Get, MemoryCache_Set, MemoryCache_Delete,
    NewMemoryCache. simpl.
  split; [intros key'; apply lookup_empty|].
  split; [f_equal; apply insert_insert_eq|].
  split; [intros key' Hne; apply lookup_insert_ne; congruence|].
  apply lookup_delete_eq.
Qed.

(** ** Directives and the storage gate *)

Lemma parseCacheControl_lookup_token (headers : Header) (k v : string) :
  parseCacheControl headers !! k = Some v ->
  exists t, t ∈ tokens (Header_Get headers "Cache-Control")
            /\ directiveOf t = (k, v).
Proof.
  rewrite parseCacheControl_directives. unfold directives. intros Hl.
  apply elem_of_list_to_map_2 in Hl.
  rewrite elem_of_reverse in Hl.
  apply list_elem_of_fmap in Hl as (t & Ht & Hin).
  exists t. split; [exact Hin|]. symmetry. exact Ht.
Qed.

Lemma parseCacheControl_hasKey_token (headers : Header) (k : string) :
  hasKey (parseCacheControl headers) k = true
  <-> exists t, t ∈ tokens (Header_Get headers "Cache-Control")
                /\ (directiveOf t).1 = k.
Proof.
  rewrite hasKey_dom, bool_decide_eq_true.
  rewrite parseCacheControl_directives. unfold directives.
  rewrite dom_list_to_map_L, elem_of_list_to_set.
  rewrite list_elem_of_fmap. split.
  - intros ([k' v] & -> & Hin). rewrite elem_of_reverse in Hin.
    apply list_elem_of_fmap in Hin as (t & Ht & Hin).
    exists t. split; [exact Hin|]. rewrite <- Ht. reflexivity.
  - intros (t & Hin & <-). exists (directiveOf t). split; [reflexivity|].
    rewrite elem_of_reverse. apply list_elem_of_fmap. exists t. auto.
Qed.

(** A directive is present in the parsed mapping exactly when some token
    of the header value (split on commas, spaces trimmed, not empty)
    carries its name, and a stored value is always the value of one of
    the tokens of that name. *)
Theorem parseCacheControl_present_iff_token (headers : Header)
    (k : string) :
  (hasKey (parseCacheControl headers) k = true
   <-> exists t, t ∈ tokens (Header_Get headers "Cache-Control")
                 /\ (directiveOf t).1 = k)
  /\ forall v, parseCacheControl headers !! k = Some v ->
       exists t, t ∈ tokens (Header_Get headers "Cache-Control")
                 /\ directiveOf t = (k, v).
Proof.
  split; [apply parseCacheControl_hasKey_token
         |apply parseCacheControl_lookup_token].
Qed.

(** Storing is allowed exactly when no token of the request's and no
    token of the response's Cache-Control is named no-store; the order in
    which the two sides are tested does not matter. *)
Theorem canStore_iff_no_no_store_token (reqHeaders respHeaders : Header) :
  (canStore (parseCacheControl reqHeaders) (parseCacheControl respHeaders)
   = true
   <-> forall t,
         t ∈ tokens (Header_Get reqHeaders "Cache-Control")
         \/ t ∈ tokens (Header_Get respHeaders "Cache-Control") ->
         (directiveOf t).1 <> "no-store")
  /\ canStore (parseCacheControl reqHeaders) (parseCacheControl respHeaders)
     = canStore (parseCacheControl respHeaders) (parseCacheControl reqHeaders).
Proof.
  pose proof (parseCacheControl_hasKey_token reqHeaders "no-store") as Hq.
  pose proof (parseCacheControl_hasKey_token respHeaders "no-store") as Hp.
  unfold canStore.
  destruct (hasKey (parseCacheControl respHeaders) "no-store");
    destruct (hasKey (parseCacheControl reqHeaders) "no-store");
    (split; [|reflexivity]); split; try discriminate; try reflexivity.
  - intros Hall. destruct (proj1 Hp eq_refl) as (t & Hin & Hn).
    exfalso. apply (Hall t); auto.
  - intros Hall. destruct (proj1 Hp eq_refl) as (t & Hin & Hn).
    exfalso. apply (Hall t); auto.
  - intros Hall. destruct (proj1 Hq eq_refl) as (t & Hin & Hn).
    exfalso. apply (Hall t); auto.
  - intros _ t [Hin|Hin] Hn.
    + assert (false = true) by (apply Hq; eauto). discriminate.
    + assert (false = true) by (apply Hp; eauto). discriminate.
Qed.

(** ** header.go *)

Lemma TrimRightFunc_idem cut (s : string) :
  TrimRightFunc cut (TrimRightFunc cut s) = TrimRightFunc cut s.
Proof.
  induction s as [|c r IH]; simpl; [reflexivity|].
  destruct (TrimRightFunc cut r) as [|b r'] eqn:E.
  - destruct (cut c) eqn:Ec; simpl; [reflexivity|]. rewrite Ec. reflexivity.
  - simpl. simpl in IH. rewrite IH. reflexivity.
Qed.

Lemma TrimLeftFunc_clean cut (s : string) :
  match TrimLeftFunc cut s with
  | EmptyString => True
  | String c _ => cut c = false
  end.
Proof.
  induction s as [|c r IH]; simpl; [exact I|].
  destruct (cut c) eqn:E; [exact IH|]. exact E.
Qed.

Lemma TrimRightFunc_clean cut (s : string) :
  match s with
  | EmptyString => True
  | String c _ => cut c = false
  end ->
  match TrimRightFunc cut s with
  | EmptyString => True
  | String c _ => cut c = false
  end.
Proof.
  destruct s as [|c r]; simpl; [auto|]. intros Hc.
  destruct (TrimRightFunc cut r); [rewrite Hc|]; exact Hc.
Qed.

Lemma TrimLeftFunc_of_clean cut (s : string) :
  match s with
  | EmptyString => True
  | String c _ => cut c = false
  end ->
  TrimLeftFunc cut s = s.
Proof. destruct s as [|c r]; simpl; [auto|]. intros ->. reflexivity. Qed.

(** Trimming twice is trimming once. *)
Lemma TrimFunc_idem cut (s : string) :
  TrimFunc cut (TrimFunc cut s) = TrimFunc cut s.
Proof.
  unfold TrimFunc.
  rewrite (TrimLeftFunc_of_clean cut (TrimRightFunc cut (TrimLeftFunc cut s))).
  - apply TrimRightFunc_idem.
  - apply TrimRightFunc_clean, TrimLeftFunc_clean.
Qed.

Lemma foldl_app_concat {A B : Type} (f : A -> list B) (l : list A)
    (acc : list B) :
  foldl (fun vals val => (vals ++ f val)%list) acc l
  = (acc ++ concat (f <$> l))%list.
Proof.
  revert acc. induction l as [|x l IH]; intros acc; simpl.
  - rewrite app_nil_r. reflexivity.
  - rewrite IH, app_assoc. reflexivity.
Qed.

Section DropRunes.

Variable p1 : ascii -> bool.
Variable p2 : ascii -> ascii -> bool.
Variable p3 : ascii -> ascii -> ascii -> bool.

(** What [dropRunes] leaves is the end of its input and begins with no
    rune that it drops. *)
Lemma dropRunes_rest (l : list ascii) :
  (exists dropped, l = (dropped ++ dropRunes p1 p2 p3 l)%list)
  /\ startsRune p1 p2 p3 (dropRunes p1 p2 p3 l) = false.
Proof.
  remember (length l) as n eqn:Hn. revert l Hn.
  induction n as [n IH] using lt_wf_ind. intros l Hn.
  destruct l as [|c1 r1]; [split; [exists []; reflexivity|reflexivity]|].
  simpl. destruct (p1 c1) eqn:E1.
  { destruct (IH (length r1) ltac:(simpl in Hn; lia) r1 eq_refl)
      as [[d Hd] Hc].
    split; [|exact Hc]. exists (c1 :: d). simpl. rewrite <- Hd.
    reflexivity. }
  destruct r1 as [|c2 r2].
  { split; [exists []; reflexivity|]. simpl. rewrite E1. reflexivity. }
  destruct (p2 c1 c2) eqn:E2.
  { destruct (IH (length r2) ltac:(simpl in Hn; lia) r2 eq_refl)
      as [[d Hd] Hc].
    split; [|exact Hc]. exists (c1 :: c2 :: d). simpl. rewrite <- Hd.
    reflexivity. }
  destruct r2 as [|c3 r3].
  { split; [exists []; reflexivity|]. simpl. rewrite E1, E2. reflexivity. }
  destruct (p3 c1 c2 c3) eqn:E3.
  { destruct (IH (length r3) ltac:(simpl in Hn; lia) r3 eq_refl)
      as [[d Hd] Hc].
    split; [|exact Hc]. exists (c1 :: c2 :: c3 :: d). simpl. rewrite <- Hd.
    reflexivity. }
  split; [exists []; reflexivity|]. simpl. rewrite E1, E2, E3. reflexivity.
Qed.

Lemma dropRunes_nothing_to_drop (l : list ascii) :
  startsRune p1 p2 p3 l = false -> dropRunes p1 p2 p3 l = l.
Proof.
  destruct l as [|c1 r1]; simpl; [reflexivity|].
  intros H. apply orb_false_iff in H as [-> H].
  destruct r1 as [|c2 r2]; [reflexivity|].
  apply orb_false_iff in H as [-> H].
  destruct r2 as [|c3 r3]; [reflexivity|].
  rewrite H. reflexivity.
Qed.

Lemma dropRunes_idem (l : list ascii) :
  dropRunes p1 p2 p3 (dropRunes p1 p2 p3 l) = dropRunes p1 p2 p3 l.
Proof. apply dropRunes_nothing_to_drop, dropRunes_rest. Qed.

Lemma startsRune_of_prefix (l rest : list ascii) :
  startsRune p1 p2 p3 (l ++ rest) = false -> startsRune p1 p2 p3 l = false.
Proof.
  destruct l as [|c1 [|c2 [|c3 r3]]]; simpl; try reflexivity.
  - intros H. apply orb_false_iff in H as [-> _]. reflexivity.
  - intros H. apply orb_false_iff in H as [-> H].
    destruct rest; simpl in *; [exact H|].
    apply orb_false_iff in H as [-> _]. reflexivity.
  - auto.
Qed.

End DropRunes.

Lemma trimSpaceRight_prefix (l : list ascii) :
  exists dropped, l = (trimSpaceRight l ++ dropped)%list.
Proof.
  unfold trimSpaceRight.
  destruct (proj1 (dropRunes_rest isSpace (fun c1 c2 => isSpace2 c2 c1)
                     (fun c1 c2 c3 => isSpace3 c3 c2 c1) (rev l)))
    as [d Hd].
  exists (rev d). rewrite <- rev_app_distr, <- Hd, rev_involutive.
  reflexivity.
Qed.

Lemma trimSpaceRight_idem (l : list ascii) :
  trimSpaceRight (trimSpaceRight l) = trimSpaceRight l.
Proof.
  unfold trimSpaceRight. rewrite rev_involutive, dropRunes_idem.
  reflexivity.
Qed.

Lemma trimSpace_idem (l : list ascii) :
  trimSpaceRight (trimSpaceLeft (trimSpaceRight (trimSpaceLeft l)))
  = trimSpaceRight (trimSpaceLeft l).
Proof.
  assert (Hl : trimSpaceLeft (trimSpaceRight (trimSpaceLeft l))
               = trimSpaceRight (trimSpaceLeft l)).
  { unfold trimSpaceLeft at 1. apply dropRunes_nothing_to_drop.
    destruct (trimSpaceRight_prefix (trimSpaceLeft l)) as [d Hd].
    apply (startsRune_of_prefix _ _ _ _ d). rewrite <- Hd.
    apply dropRunes_rest. }
  rewrite Hl. apply trimSpaceRight_idem.
Qed.

Lemma trimSpace_In (c : ascii) (l : list ascii) :
  In c (trimSpaceRight (trimSpaceLeft l)) -> In c l.
Proof.
  intros Hin.
  destruct (trimSpaceRight_prefix (trimSpaceLeft l)) as [d Hd].
  destruct (proj1 (dropRunes_rest isSpace isSpace2 isSpace3 l)) as [a Ha].
  fold (trimSpaceLeft l) in Ha. rewrite Ha, Hd.
  apply in_or_app. right. apply in_or_app. left. exact Hin.
Qed.

Lemma ContainsRune_In (s : string) (c : ascii) :
  ContainsRune s c = true <-> In c (list_ascii_of_string s).
Proof.
  induction s as [|a r IH]; simpl; [split; [discriminate|tauto]|].
  rewrite orb_true_iff, IH. split.
  - intros [E|H]; [left; apply Ascii.eqb_eq, E|auto].
  - intros [E|H]; [left; apply Ascii.eqb_eq, E|auto].
Qed.

(** [TrimSpace] brings in no byte, and trimming twice is trimming once. *)
Lemma TrimSpace_free (s : string) (c : ascii) :
  ContainsRune s c = false -> ContainsRune (TrimSpace s) c = false.
Proof.
  intros H. destruct (ContainsRune (TrimSpace s) c) eqn:E; [|reflexivity].
  apply ContainsRune_In in E. unfold TrimSpace in E.
  rewrite list_ascii_of_string_of_list_ascii in E.
  apply trimSpace_In, ContainsRune_In in E. congruence.
Qed.

Lemma TrimSpace_idem (s : string) : TrimSpace (TrimSpace s) = TrimSpace s.
Proof.
  unfold TrimSpace. rewrite list_ascii_of_string_of_list_ascii.
  rewrite trimSpace_idem. reflexivity.
Qed.

Lemma headerAllCommaSepValues_absent (headers : Header) (name : string) :
  headers !! CanonicalHeaderKey name = None ->
  headerAllCommaSepValues headers name = [].
Proof. unfold headerAllCommaSepValues. intros ->. reflexivity. Qed.

(** [headerAllCommaSepValues] gives, for the values stored under the
    canonical form of [name], the comma-separated fields of the first
    value, then those of the second, and so on, each trimmed; nothing for
    a header that is not there, and at least one (possibly empty) field
    per stored value. No field contains a comma, and trimming a field
    again changes nothing. *)
Theorem headerAllCommaSepValues_fields (headers : Header) (name : string) :
  let vals := default [] (headers !! CanonicalHeaderKey name) in
  headerAllCommaSepValues headers name
  = concat ((fun val => TrimSpace <$> Split val ",") <$> vals)
  /\ (headers !! CanonicalHeaderKey name = None ->
      headerAllCommaSepValues headers name = [])
  /\ (length vals <= length (headerAllCommaSepValues headers name))%nat
  /\ Forall (fun field => ContainsRune field "," = false
                          /\ TrimSpace field = field)
       (headerAllCommaSepValues headers name).
Proof.
  cbv zeta. unfold headerAllCommaSepValues.
  rewrite foldl_app_concat. simpl.
  split; [reflexivity|].
  split; [intros ->; reflexivity|].
  generalize (default [] (headers !! CanonicalHeaderKey name)).
  intros vals. split.
  - induction vals as [|v vals IH]; simpl; [lia|].
    rewrite length_app, length_fmap.
    rewrite (Split_unfold v ","). simpl. apply le_n_S.
    eapply Nat.le_trans; [exact IH|]. apply Nat.le_add_l.
  - induction vals as [|v vals IH]; simpl; [constructor|].
    apply Forall_app. split; [|exact IH].
    apply Forall_fmap.
    eapply Forall_impl; [apply (Split_fields_free v ",")|].
    intros x Hx. simpl. split.
    + apply TrimSpace_free, Hx.
    + apply TrimSpace_idem.
Qed.

Lemma headerAllCommaSepValues_fields_witness :
  headerAllCommaSepValues (Sample.header [("Etag", "v1")]) "vary" = [].
Proof.
  apply (headerAllCommaSepValues_fields (Sample.header [("Etag", "v1")])
           "vary").
  vm_compute. reflexivity.
Defined.

Lemma hop_by_hop_fold (extras : list string) (hop : gset string)
    (k : string) :
  (k ∈ foldl (fun hop extra =>
                if negb (String.eqb (Trim extra " ") "")
                then {[ CanonicalHeaderKey extra ]} ∪ hop else hop)
             hop extras)
  <-> (k ∈ hop
       \/ exists extra, extra ∈ extras /\ Trim extra " " <> ""
                        /\ k = CanonicalHeaderKey extra).
Proof.
  revert hop. induction extras as [|e extras IH]; intros hop; simpl.
  - split; [auto|]. intros [H|(x & Hx & _)]; [exact H|].
    apply elem_of_nil in Hx. contradiction.
  - rewrite IH. destruct (String.eqb_spec (Trim e " ") "") as [E|E]; simpl.
    + split.
      * intros [H|(x & Hx & Hne & Hk)]; [auto|].
        right. exists x. rewrite elem_of_cons. auto.
      * intros [H|(x & Hx & Hne & Hk)]; [auto|].
        apply elem_of_cons in Hx as [->|Hx]; [contradiction|].
        right. exists x. auto.
    + rewrite elem_of_union, elem_of_singleton. split.
      * intros [[H|H]|(x & Hx & Hne & Hk)].
        -- right. exists e. rewrite elem_of_cons. auto.
        -- auto.
        -- right. exists x. rewrite elem_of_cons. auto.
      * intros [H|(x & Hx & Hne & Hk)]; [auto|].
        apply elem_of_cons in Hx as [->|Hx]; [auto|].
        right. exists x. auto.
Qed.

Lemma getEndToEndHeaders_elem (respHeaders : Header) (k : string) :
  k ∈ getEndToEndHeaders respHeaders
  <-> is_Some (respHeaders !! k)
      /\ (k ∉ hopByHopHeaders)
      /\ forall extra,
           extra ∈ Split (Header_Get respHeaders "connection") "," ->
           Trim extra " " <> "" -> k <> CanonicalHeaderKey extra.
Proof.
  unfold getEndToEndHeaders.
  rewrite list_elem_of_filter, hop_by_hop_fold.
  rewrite list_elem_of_fmap. split.
  - intros [Hnot ([k' v] & -> & Hin)]. simpl in *.
    apply elem_of_map_to_list in Hin.
    split; [eauto|]. split; [tauto|].
    intros extra Hx Hne Hk. apply Hnot. right. exists extra. auto.
  - intros ([v Hv] & Hfix & Hextra). split.
    + intros [H|(extra & Hx & Hne & Hk)]; [contradiction|].
      exact (Hextra extra Hx Hne Hk).
    + exists (k, v). split; [reflexivity|].
      apply elem_of_map_to_list. exact Hv.
Qed.

(** [getEndToEndHeaders] returns each key of the header map at most once,
    and a key is returned exactly when it is none of the eight fixed
    hop-by-hop names and is not the canonical form of a (not blank)
    comma-separated field of the Connection header, the field taken as it
    stands between the commas. *)
Theorem getEndToEndHeaders_exactly (respHeaders : Header) :
  NoDup (getEndToEndHeaders respHeaders)
  /\ forall k : string,
       k ∈ getEndToEndHeaders respHeaders
       <-> is_Some (respHeaders !! k)
           /\ (k ∉ hopByHopHeaders)
           /\ forall extra,
                extra ∈ Split (Header_Get respHeaders "connection") "," ->
                Trim extra " " <> "" -> k <> CanonicalHeaderKey extra.
Proof.
  split.
  - unfold getEndToEndHeaders. apply NoDup_filter, NoDup_fst_map_to_list.
  - apply getEndToEndHeaders_elem.
Qed.

(** The field is canonicalized with its spaces: a header named after a
    comma and a space in Connection stays end-to-end. *)
Example getEndToEndHeaders_field_with_space :
  getEndToEndHeaders
    (Sample.header [("Connection", "close, Foo"); ("Foo", "1");
                    ("Close", "2"); ("Etag", "v1")])
  = ["Etag"; "Foo"].
Proof. vm_compute. reflexivity. Qed.

Lemma foldl_insert_lookup (src : Header) (keys : list string) (h : Header)
    (k : string) :
  foldl (fun h header => <[header := default [] (src !! header)]> h) h keys
  !! k
  = if decide (k ∈ keys) then Some (default [] (src !! k)) else h !! k.
Proof.
  revert h. induction keys as [|x keys IH]; intros h; simpl.
  - destruct (decide (k ∈ [])) as [Hin|_]; [|reflexivity].
    apply elem_of_nil in Hin. contradiction.
  - rewrite IH. destruct (decide (k ∈ keys)) as [Hin|Hnin].
    + rewrite decide_True by (apply elem_of_cons; auto). reflexivity.
    + destruct (decide (k = x)) as [->|Hne].
      * rewrite decide_True by (apply elem_of_cons; auto).
        apply lookup_insert_eq.
      * rewrite decide_False
          by (rewrite elem_of_cons; intros [?|?]; contradiction).
        apply lookup_insert_ne. congruence.
Qed.

(** Merging a 304 reply onto the cached response keeps the cached status
    and body; every end-to-end header of the reply replaces the cached
    one of that name, and every other header of the cached response,
    hop-by-hop ones included, stays as it was. *)
Theorem mergeEndToEnd_headers (cachedResp resp : Response) :
  Status (mergeEndToEnd cachedResp resp) = Status cachedResp
  /\ StatusCode (mergeEndToEnd cachedResp resp) = StatusCode cachedResp
  /\ Body (mergeEndToEnd cachedResp resp) = Body cachedResp
  /\ forall k : string,
       RespHeader (mergeEndToEnd cachedResp resp) !! k
       = if decide (k ∈ getEndToEndHeaders (RespHeader resp))
         then RespHeader resp !! k
         else RespHeader cachedResp !! k.
Proof.
  unfold mergeEndToEnd, withRespHeader. simpl.
  do 3 (split; [reflexivity|]).
  intros k. rewrite foldl_insert_lookup.
  destruct (decide (k ∈ getEndToEndHeaders (RespHeader resp)))
    as [Hin|_]; [|reflexivity].
  apply getEndToEndHeaders_elem in Hin.
  destruct Hin as ([v Hv] & _). rewrite Hv. reflexivity.
Qed.

(** ** Vary *)

Lemma varyLoop_forall (cachedResp : Response) (req : Request)
    (headers : list string) :
  varyLoop cachedResp req headers = true
  <-> forall header, header ∈ headers ->
        CanonicalHeaderKey header <> "" ->
        Header_Get (ReqHeader req) (CanonicalHeaderKey header)
        = Header_Get (RespHeader cachedResp)
            ("X-Varied-" ++ CanonicalHeaderKey header).
Proof.
  induction headers as [|h headers IH]; simpl.
  - split; [|reflexivity]. intros _ header Hin.
    apply elem_of_nil in Hin. contradiction.
  - destruct (String.eqb_spec (CanonicalHeaderKey h) "") as [E|E]; simpl.
    + rewrite IH. split.
      * intros Hall header Hin Hne.
        apply elem_of_cons in Hin as [->|Hin]; [contradiction|auto].
      * intros Hall header Hin. apply Hall. apply elem_of_cons. auto.
    + destruct (String.eqb_spec
                  (Header_Get (ReqHeader req) (CanonicalHeaderKey h))
                  (Header_Get (RespHeader cachedResp)
                     ("X-Varied-" ++ CanonicalHeaderKey h))) as [E'|E'];
        simpl.
      * rewrite IH. split.
        -- intros Hall header Hin Hne.
           apply elem_of_cons in Hin as [->|Hin]; auto.
        -- intros Hall header Hin. apply Hall. apply elem_of_cons. auto.
      * split; [discriminate|]. intros Hall. exfalso. apply E'.
        apply Hall; [apply elem_of_cons; auto|exact E].
Qed.

(** [varyMatches] answers true exactly when, for every field of the
    cached response's Vary whose canonical name is not empty, the
    request's value of that header equals the value recorded under
    X-Varied-<Header> in the cached response; in particular it answers
    true for a cached response without Vary header. *)
Theorem varyMatches_iff_all_recorded_equal (cachedResp : Response)
    (req : Request) :
  (varyMatches cachedResp req = true
   <-> forall header,
         header ∈ headerAllCommaSepValues (RespHeader cachedResp) "vary" ->
         CanonicalHeaderKey header <> "" ->
         Header_Get (ReqHeader req) (CanonicalHeaderKey header)
         = Header_Get (RespHeader cachedResp)
             ("X-Varied-" ++ CanonicalHeaderKey header))
  /\ (RespHeader cachedResp !! "Vary" = None ->
      varyMatches cachedResp req = true).
Proof.
  unfold varyMatches. split; [apply varyLoop_forall|].
  intros Hnone.
  rewrite (headerAllCommaSepValues_absent (RespHeader cachedResp) "vary")
    by exact Hnone.
  reflexivity.
Qed.

Lemma varyMatches_iff_all_recorded_equal_witness :
  varyMatches Sample.tagged (Sample.GET Sample.url []) = true.
Proof.
  apply (varyMatches_iff_all_recorded_equal Sample.tagged
           (Sample.GET Sample.url [])).
  vm_compute. reflexivity.
Defined.

(** One byte of the canonical form, as the loop of [canonLoop] computes
    it, is left alone by a second pass and is a token byte if it was. *)
Lemma canonByte_stable (upper : bool) (c : ascii) :
  let canon (c : ascii) :=
    if upper && isLower c then toUpper c
    else if negb upper && isUpper c then toLower c
    else c in
  canon (canon c) = canon c
  /\ (validHeaderFieldByte c = true -> validHeaderFieldByte (canon c) = true).
Proof.
  destruct upper, c as [[] [] [] [] [] [] [] []];
    (split; [vm_compute; reflexivity|]);
    vm_compute; intros H; first [exact H | reflexivity].
Qed.

Lemma canonLoop_idem (upper : bool) (s : string) :
  canonLoop upper (canonLoop upper s) = canonLoop upper s.
Proof.
  revert upper. induction s as [|c r IH]; intros upper; simpl;
    [reflexivity|].
  destruct (canonByte_stable upper c) as [Hc _]. cbv zeta in Hc.
  rewrite Hc, IH. reflexivity.
Qed.

Lemma canonLoop_valid (upper : bool) (s : string) :
  allBytes validHeaderFieldByte s = true ->
  allBytes validHeaderFieldByte (canonLoop upper s) = true.
Proof.
  revert upper. induction s as [|c r IH]; intros upper; simpl; [auto|].
  intros H. apply andb_true_iff in H as [Hc Hr].
  destruct (canonByte_stable upper c) as [_ Hv]. cbv zeta in Hv.
  rewrite (Hv Hc), (IH _ Hr). reflexivity.
Qed.

(** The canonical form of a key is its own canonical form. *)
Lemma CanonicalHeaderKey_idem (s : string) :
  CanonicalHeaderKey (CanonicalHeaderKey s) = CanonicalHeaderKey s.
Proof.
  unfold CanonicalHeaderKey.
  destruct (allBytes validHeaderFieldByte s) eqn:E.
  - rewrite (canonLoop_valid true s E). apply canonLoop_idem.
  - rewrite E. reflexivity.
Qed.

(** An echo header named after a canonical key is canonical as written. *)
Lemma X_Varied_of_canonical (s : string) :
  CanonicalHeaderKey ("X-Varied-" ++ CanonicalHeaderKey s)
  = "X-Varied-" ++ CanonicalHeaderKey s.
Proof.
  pose proof (CanonicalHeaderKey_idem s) as Hidem.
  generalize dependent (CanonicalHeaderKey s). intros k Hidem.
  unfold CanonicalHeaderKey in *. simpl.
  change (String.append "" k) with k.
  destruct (allBytes validHeaderFieldByte k); [|reflexivity].
  rewrite Hidem. reflexivity.
Qed.

Lemma Header_Get_Set (h : Header) (key key' value : string) :
  Header_Get (Header_Set h key value) key'
  = if decide (CanonicalHeaderKey key = CanonicalHeaderKey key')
    then value else Header_Get h key'.
Proof.
  destruct (decide (CanonicalHeaderKey key = CanonicalHeaderKey key'))
    as [E|E].
  - unfold Header_Get, Header_Set. rewrite E, lookup_insert_eq. reflexivity.
  - apply Header_Get_Set_ne, E.
Qed.

Section EchoVaried.

Variable req : Request.

Let echo (resp : Response) (varyKey : string) : Response :=
  let varyKey := CanonicalHeaderKey varyKey in
  let fakeHeader := "X-Varied-" ++ varyKey in
  let reqValue := Header_Get (ReqHeader req) varyKey in
  if negb (String.eqb reqValue "")
  then setRespHeader resp fakeHeader reqValue
  else resp.

Lemma echo_other_echo (resp : Response) (x k : string) :
  Header_Get (RespHeader (echo resp x))
    ("X-Varied-" ++ CanonicalHeaderKey k)
  = if decide (CanonicalHeaderKey x = CanonicalHeaderKey k)
    then (if String.eqb (Header_Get (ReqHeader req) (CanonicalHeaderKey x)) ""
          then Header_Get (RespHeader resp)
                 ("X-Varied-" ++ CanonicalHeaderKey k)
          else Header_Get (ReqHeader req) (CanonicalHeaderKey x))
    else Header_Get (RespHeader resp) ("X-Varied-" ++ CanonicalHeaderKey k).
Proof.
  unfold echo.
  destruct (String.eqb (Header_Get (ReqHeader req) (CanonicalHeaderKey x)) "");
    simpl.
  - destruct (decide (CanonicalHeaderKey x = CanonicalHeaderKey k));
      reflexivity.
  - rewrite Header_Get_Set, !X_Varied_of_canonical.
    destruct (decide (CanonicalHeaderKey x = CanonicalHeaderKey k)) as [E|E].
    + rewrite decide_True by (rewrite E; reflexivity). reflexivity.
    + rewrite decide_False; [reflexivity|].
      intros H. apply E. revert H. simpl. intros [= H]. exact H.
Qed.

Lemma echo_keeps_recorded (keys : list string) (resp : Response)
    (k : string) :
  Header_Get (RespHeader resp) ("X-Varied-" ++ CanonicalHeaderKey k)
  = Header_Get (ReqHeader req) (CanonicalHeaderKey k) ->
  Header_Get (RespHeader (foldl echo resp keys))
    ("X-Varied-" ++ CanonicalHeaderKey k)
  = Header_Get (ReqHeader req) (CanonicalHeaderKey k).
Proof.
  revert resp. induction keys as [|x keys IH]; intros resp Hk; simpl;
    [exact Hk|].
  apply IH. rewrite echo_other_echo.
  destruct (decide (CanonicalHeaderKey x = CanonicalHeaderKey k)) as [E|E];
    [|exact Hk].
  rewrite E.
  destruct (String.eqb (Header_Get (ReqHeader req) (CanonicalHeaderKey k)) "");
    [exact Hk|reflexivity].
Qed.

Lemma echo_records_all (keys : list string) (resp : Response) :
  (forall h, h ∈ keys ->
     Header_Get (ReqHeader req) (CanonicalHeaderKey h) = "" ->
     Header_Get (RespHeader resp) ("X-Varied-" ++ CanonicalHeaderKey h) = "")
  ->
  forall h, h ∈ keys ->
    Header_Get (RespHeader (foldl echo resp keys))
      ("X-Varied-" ++ CanonicalHeaderKey h)
    = Header_Get (ReqHeader req) (CanonicalHeaderKey h).
Proof.
  revert resp. induction keys as [|x keys IH]; intros resp Hclean h Hin.
  - apply elem_of_nil in Hin. contradiction.
  - simpl.
    assert (Hx : forall h', (h' = x \/ h' ∈ keys) ->
              Header_Get (ReqHeader req) (CanonicalHeaderKey h') = "" ->
              Header_Get (RespHeader (echo resp x))
                ("X-Varied-" ++ CanonicalHeaderKey h') = "").
    { intros h' Hh' Hnone. rewrite echo_other_echo.
      assert (Hr : Header_Get (RespHeader resp)
                     ("X-Varied-" ++ CanonicalHeaderKey h') = "").
      { apply Hclean; [|exact Hnone]. apply elem_of_cons. exact Hh'. }
      destruct (decide (CanonicalHeaderKey x = CanonicalHeaderKey h'))
        as [E|E]; [|exact Hr].
      rewrite E, Hnone. simpl. exact Hr. }
    apply elem_of_cons in Hin as [->|Hin].
    + apply echo_keeps_recorded. rewrite echo_other_echo.
      rewrite decide_True by reflexivity.
      destruct (String.eqb_spec
                  (Header_Get (ReqHeader req) (CanonicalHeaderKey x)) "")
        as [E|E]; [|reflexivity].
      rewrite E. apply Hclean; [apply elem_of_cons; auto|exact E].
    + apply IH; [|exact Hin]. intros h' Hh'. apply Hx. auto.
Qed.

Lemma echo_keeps_Vary (keys : list string) (resp : Response) :
  RespHeader (foldl echo resp keys) !! "Vary" = RespHeader resp !! "Vary".
Proof.
  revert resp. induction keys as [|x keys IH]; intros resp; simpl;
    [reflexivity|].
  rewrite IH. unfold echo.
  destruct (negb (String.eqb
                    (Header_Get (ReqHeader req) (CanonicalHeaderKey x)) ""));
    [|reflexivity].
  simpl. unfold Header_Set. rewrite X_Varied_of_canonical.
  apply lookup_insert_ne. simpl. discriminate.
Qed.

(** The Vary record the store stage writes is the one the next lookup
    reads: unless the response already carries an X-Varied header for a
    Vary field that the request does not send, the response given out by
    [echoVaried] for a request matches that same request. *)
Theorem echoVaried_matches_same_request (resp : Response) :
  (forall header,
     header ∈ headerAllCommaSepValues (RespHeader resp) "vary" ->
     Header_Get (ReqHeader req) (CanonicalHeaderKey header) = "" ->
     Header_Get (RespHeader resp)
       ("X-Varied-" ++ CanonicalHeaderKey header) = "") ->
  varyMatches (echoVaried req resp) req = true.
Proof.
  intros Hclean.
  unfold varyMatches. apply varyLoop_forall.
  assert (Hsame : headerAllCommaSepValues
                    (RespHeader (echoVaried req resp)) "vary"
                  = headerAllCommaSepValues (RespHeader resp) "vary").
  { unfold headerAllCommaSepValues.
    change (CanonicalHeaderKey "vary") with "Vary".
    unfold echoVaried. fold echo. rewrite echo_keeps_Vary. reflexivity. }
  rewrite Hsame. intros header Hin _. symmetry.
  unfold echoVaried. fold echo. apply echo_records_all; assumption.
Qed.

End EchoVaried.

Lemma echoVaried_matches_same_request_witness :
  varyMatches
    (echoVaried (Sample.GET Sample.url [("Accept-Language", "fr")])
       (Sample.response "200 OK" 200 [("Vary", "Accept-Language")] "salut"))
    (Sample.GET Sample.url [("Accept-Language", "fr")]) = true.
Proof.
  apply (echoVaried_matches_same_request
           (Sample.GET Sample.url [("Accept-Language", "fr")])
           (Sample.response "200 OK" 200 [("Vary", "Accept-Language")]
              "salut")).
  intros header Hin Hnone.
  vm_compute in Hin. apply list_elem_of_singleton in Hin. subst header.
  vm_compute in Hnone. discriminate Hnone.
Defined.

(** ** cacheKey, addValidators *)

Lemma append_cancel_l (p a b : string) : p ++ a = p ++ b -> a = b.
Proof.
  induction p as [|c p IH]; simpl; [auto|]. intros [= H]. auto.
Qed.

Lemma length_append (a b : string) :
  String.length (a ++ b) = (String.length a + String.length b)%nat.
Proof. induction a as [|c a IH]; simpl; [reflexivity|]. rewrite IH. reflexivity. Qed.

Lemma cacheKey_not_URL (req : Request) :
  Method req <> "GET" -> cacheKey req <> URL req.
Proof.
  intros Hm. unfold cacheKey.
  destruct (String.eqb_spec (Method req) "GET") as [E|_]; [contradiction|].
  intros Heq. apply (f_equal String.length) in Heq.
  rewrite !length_append in Heq. simpl in Heq. lia.
Qed.

(** Among requests of one method the key determines the URL: two such
    requests share a key only if they share the URL; and the key of a
    request that is not a GET is never its bare URL, so it cannot collide
    with the key of the GET of the same URL. *)
Theorem cacheKey_injective_per_method (r1 r2 : Request) :
  (Method r1 = Method r2 -> cacheKey r1 = cacheKey r2 -> URL r1 = URL r2)
  /\ (Method r1 <> "GET" -> cacheKey r1 <> URL r1).
Proof.
  split; [|apply cacheKey_not_URL].
  unfold cacheKey. intros ->.
  destruct (String.eqb (Method r2) "GET"); [auto|].
  intros H. apply append_cancel_l in H. apply append_cancel_l in H. exact H.
Qed.

Lemma cacheKey_injective_per_method_witness :
  cacheKey (Sample.HEAD Sample.url []) <> URL (Sample.HEAD Sample.url []).
Proof.
  apply (cacheKey_injective_per_method (Sample.HEAD Sample.url [])
           (Sample.HEAD Sample.url [])).
  vm_compute. discriminate.
Defined.

Lemma addValidators_if_modified_since (cachedResp : Response)
    (req : Request) :
  Header_Get (RespHeader cachedResp) "last-modified" <> "" ->
  Header_Get (ReqHeader req) "last-modified" = "" ->
  Header_Get (ReqHeader (addValidators cachedResp req)) "if-modified-since"
  = Header_Get (RespHeader cachedResp) "last-modified".
Proof.
  intros Hl Hr. unfold addValidators. rewrite Hr.
  destruct (String.eqb_spec
              (Header_Get (RespHeader cachedResp) "last-modified") "")
    as [?|_]; [contradiction|].
  simpl.
  destruct (negb (String.eqb (Header_Get (RespHeader cachedResp) "etag") "")
            && String.eqb (Header_Get (ReqHeader req) "etag") "");
    simpl; apply Header_Get_Set_eq.
Qed.

Lemma addValidators_nothing_to_add (cachedResp : Response) (req : Request) :
  Header_Get (RespHeader cachedResp) "etag" = "" ->
  Header_Get (RespHeader cachedResp) "last-modified" = "" ->
  addValidators cachedResp req = req.
Proof. intros He Hl. unfold addValidators. rewrite He, Hl. reflexivity. Qed.

(** What lines 156-177 do to the request. A cached ETag becomes the
    request's If-None-Match when the request has no header named Etag,
    and, independently, a cached Last-Modified becomes its
    If-Modified-Since when the request has no header named Last-Modified;
    a cached response with neither validator leaves the request exactly
    as it came. *)
Theorem addValidators_sets_validators (cachedResp : Response)
    (req : Request) :
  (Header_Get (RespHeader cachedResp) "etag" <> "" ->
   Header_Get (ReqHeader req) "etag" = "" ->
   Header_Get (ReqHeader (addValidators cachedResp req)) "if-none-match"
   = Header_Get (RespHeader cachedResp) "etag")
  /\ (Header_Get (RespHeader cachedResp) "last-modified" <> "" ->
      Header_Get (ReqHeader req) "last-modified" = "" ->
      Header_Get (ReqHeader (addValidators cachedResp req))
        "if-modified-since"
      = Header_Get (RespHeader cachedResp) "last-modified")
  /\ (Header_Get (RespHeader cachedResp) "etag" = "" ->
      Header_Get (RespHeader cachedResp) "last-modified" = "" ->
      addValidators cachedResp req = req).
Proof.
  split; [apply addValidators_if_none_match|].
  split; [apply addValidators_if_modified_since
         |apply addValidators_nothing_to_add].
Qed.

Lemma addValidators_sets_validators_witness :
  let cachedResp :=
    Sample.response "200 OK" 200
      [("Etag", "v1"); ("Last-Modified", Sample.epoch)] "hello" in
  let req := Sample.GET Sample.url [] in
  Header_Get (ReqHeader (addValidators cachedResp req)) "if-none-match"
  = "v1"
  /\ Header_Get (ReqHeader (addValidators cachedResp req))
       "if-modified-since" = Sample.epoch
  /\ addValidators Sample.plain req = req.
Proof.
  cbv zeta.
  split; [|split].
  - apply (addValidators_sets_validators
             (Sample.response "200 OK" 200
                [("Etag", "v1"); ("Last-Modified", Sample.epoch)] "hello")
             (Sample.GET Sample.url [])).
    + vm_compute. discriminate.
    + vm_compute. reflexivity.
  - apply (addValidators_sets_validators
             (Sample.response "200 OK" 200
                [("Etag", "v1"); ("Last-Modified", Sample.epoch)] "hello")
             (Sample.GET Sample.url [])).
    + vm_compute. discriminate.
    + vm_compute. reflexivity.
  - apply (addValidators_sets_validators Sample.plain
             (Sample.GET Sample.url [])).
    + vm_compute. reflexivity.
    + vm_compute. reflexivity.
Defined.

(** The validators are the only thing the revalidation request differs
    in: method, URL and every header other than If-None-Match and
    If-Modified-Since are those of the request that came in, and the
    clone made for it is an exact copy. *)
Theorem addValidators_changes_only_validators (cachedResp : Response)
    (req : Request) :
  cloneRequest req = req
  /\ Method (addValidators cachedResp req) = Method req
  /\ URL (addValidators cachedResp req) = URL req
  /\ forall key : string,
       CanonicalHeaderKey key <> "If-None-Match" ->
       CanonicalHeaderKey key <> "If-Modified-Since" ->
       Header_Get (ReqHeader (addValidators cachedResp req)) key
       = Header_Get (ReqHeader req) key.
Proof.
  split; [apply cloneRequest_same|apply addValidators_fields].
Qed.

(** ** More on the orchestrator *)

Section OrchestratorMore.

Variable Time : Type.
Variable time_Parse : string -> result Time.
Variable Time_Sub : Time -> Time -> Z.
Variable ParseDuration : string -> result Z.
Variable clock_since : Time -> Z.
Variable ReadResponse : list byte -> Request -> result Response.
Variable DumpResponse : Response -> result (list byte).
Context {C : Type} `{Cache C}.

Local Abbreviation storeStage' := (storeStage DumpResponse).
Local Abbreviation executeRequest' :=
  (executeRequest Time time_Parse Time_Sub ParseDuration clock_since
     ReadResponse DumpResponse).
Local Abbreviation remoteWithEntry' :=
  (remoteWithEntry Time time_Parse ParseDuration clock_since DumpResponse).
Local Abbreviation remoteWithoutEntry' :=
  (remoteWithoutEntry ReadResponse DumpResponse).
Local Abbreviation canStaleOnError' :=
  (canStaleOnError Time time_Parse ParseDuration clock_since).
Local Abbreviation planRequest' :=
  (planRequest Time time_Parse Time_Sub ParseDuration clock_since).
Local Abbreviation getFreshness' :=
  (getFreshness Time time_Parse Time_Sub ParseDuration clock_since).
Local Abbreviation drainBody' := (drainBody DumpResponse).

(** The three ways through [executeRequest]. *)
Lemma executeRequest_paths (cc : CachedClient) (cache : C) (req : Request) :
  (cacheableRequest req = true
   /\ exists c, CachedResponse ReadResponse cache req = Ok (Some c)
        /\ ((planRequest' (markedResponse cc c) req = None
             /\ executeRequest' cc cache req
                = mkExchange (Ok (markedResponse cc c)) cache [] None)
            \/ exists r, planRequest' (markedResponse cc c) req = Some r
                 /\ executeRequest' cc cache req
                    = remoteWithEntry' cc true (cacheKey req)
                        (markedResponse cc c) cache r))
  \/ (cacheableRequest req = true
      /\ (forall c, CachedResponse ReadResponse cache req <> Ok (Some c))
      /\ executeRequest' cc cache req
         = remoteWithoutEntry' cc true (cacheKey req) cache req)
  \/ (cacheableRequest req = false
      /\ executeRequest' cc cache req
         = remoteWithoutEntry' cc false (cacheKey req)
             (Cache_Delete cache (cacheKey req)) req).
Proof.
  unfold executeRequest, markedResponse.
  destruct (cacheableRequest req) eqn:Hc.
  - destruct (CachedResponse ReadResponse cache req) as [[c|]|e] eqn:Hcr.
    + left. split; [reflexivity|]. exists c. split; [reflexivity|].
      destruct (planRequest' _ req) as [r|] eqn:Hp.
      * right. exists r. auto.
      * left. auto.
    + right. left. split; [reflexivity|]. split; [discriminate|reflexivity].
    + right. left. split; [reflexivity|]. split; [discriminate|reflexivity].
  - right. right. auto.
Qed.

Lemma planRequest_fields (cachedResp : Response) (req r : Request) :
  planRequest' cachedResp req = Some r ->
  Method r = Method req /\ URL r = URL req
  /\ forall key : string,
       CanonicalHeaderKey key <> "If-None-Match" ->
       CanonicalHeaderKey key <> "If-Modified-Since" ->
       Header_Get (ReqHeader r) key = Header_Get (ReqHeader req) key.
Proof.
  unfold planRequest.
  pose proof (addValidators_fields cachedResp req) as Hadd.
  destruct (varyMatches cachedResp req);
    [destruct (getFreshness' req (RespHeader cachedResp))|];
    intros [= <-]; auto.
Qed.

Lemma planRequest_None (cachedResp : Response) (req : Request) :
  planRequest' cachedResp req = None
  <-> varyMatches cachedResp req = true
      /\ getFreshness' req (RespHeader cachedResp) = fresh.
Proof.
  unfold planRequest.
  destruct (varyMatches cachedResp req);
    [destruct (getFreshness' req (RespHeader cachedResp))|];
    split; try discriminate; auto; intros [? ?]; discriminate.
Qed.

Lemma storeStage_sent (cc : CachedClient) (cacheable : bool) (key : string)
    (req : Request) (resp : Response) (cache : C) (out : list Request) :
  sent (storeStage' cc cacheable key req resp cache out) = out.
Proof.
  unfold storeStage.
  destruct (cacheable && canStore _ _); [|reflexivity].
  destruct (String.eqb (Method req) "GET"); [reflexivity|].
  destruct (DumpResponse _); reflexivity.
Qed.

Lemma remoteWithoutEntry_sent (cc : CachedClient) (cacheable : bool)
    (key : string) (cache : C) (req : Request) :
  sent (remoteWithoutEntry' cc cacheable key cache req)
  = if hasKey (parseCacheControl (ReqHeader req)) "only-if-cached"
    then [] else [req].
Proof.
  unfold remoteWithoutEntry.
  destruct (hasKey (parseCacheControl (ReqHeader req)) "only-if-cached").
  - destruct (newGatewayTimeoutResponse ReadResponse req);
      [apply storeStage_sent|reflexivity].
  - destruct (Transport cc req); [apply storeStage_sent|reflexivity].
Qed.

Lemma remoteWithEntry_sent_one (cc : CachedClient) (cacheable : bool)
    (key : string) (cachedResp : Response) (cache : C) (req : Request) :
  sent (remoteWithEntry' cc cacheable key cachedResp cache req) = [req].
Proof.
  unfold remoteWithEntry.
  destruct (Transport cc req) as [resp|e].
  - destruct (String.eqb (Method req) "GET"
              && (StatusCode resp =? StatusNotModified)%Z);
      [apply storeStage_sent|].
    destruct ((StatusCode resp >=? 500)%Z && String.eqb (Method req) "GET"
              && canStaleOnError' (RespHeader cachedResp) (ReqHeader req));
      [reflexivity|apply storeStage_sent].
  - destruct (String.eqb (Method req) "GET"
              && canStaleOnError' (RespHeader cachedResp) (ReqHeader req));
      reflexivity.
Qed.

(** One exchange makes at most one transport call, and the request it
    sends has the method and the URL of the request that came in and the
    same headers except possibly If-None-Match and If-Modified-Since. *)
Theorem executeRequest_sends_at_most_one (cc : CachedClient) (cache : C)
    (req : Request) :
  sent (executeRequest' cc cache req) = []
  \/ exists r,
       sent (executeRequest' cc cache req) = [r]
       /\ Method r = Method req /\ URL r = URL req
       /\ forall key : string,
            CanonicalHeaderKey key <> "If-None-Match" ->
            CanonicalHeaderKey key <> "If-Modified-Since" ->
            Header_Get (ReqHeader r) key = Header_Get (ReqHeader req) key.
Proof.
  destruct (executeRequest_paths cc cache req)
    as [(_ & c & _ & [(_ & ->) | (r & Hp & ->)])
       | [(_ & _ & ->) | (_ & ->)]].
  - left. reflexivity.
  - right. exists r. rewrite remoteWithEntry_sent_one.
    split; [reflexivity|]. apply (planRequest_fields _ _ _ Hp).
  - rewrite remoteWithoutEntry_sent.
    destruct (hasKey _ "only-if-cached"); [left; reflexivity|].
    right. exists req. auto.
  - rewrite remoteWithoutEntry_sent.
    destruct (hasKey _ "only-if-cached"); [left; reflexivity|].
    right. exists req. auto.
Qed.

(** The network is left alone in exactly two cases: a cached response was
    read back, its Vary record matches and it is fresh; or no cached
    response could be used for lookup (the request is not cacheable, or
    nothing readable is stored) and the request says only-if-cached. *)
Theorem executeRequest_no_transport_call_iff (cc : CachedClient)
    (cache : C) (req : Request) :
  sent (executeRequest' cc cache req) = []
  <-> (cacheableRequest req = true
       /\ exists c,
            CachedResponse ReadResponse cache req = Ok (Some c)
            /\ varyMatches (markedResponse cc c) req = true
            /\ getFreshness' req (RespHeader (markedResponse cc c)) = fresh)
      \/ ((cacheableRequest req = false
           \/ forall c, CachedResponse ReadResponse cache req <> Ok (Some c))
          /\ hasKey (parseCacheControl (ReqHeader req)) "only-if-cached"
             = true).
Proof.
  destruct (executeRequest_paths cc cache req)
    as [(Hc & c & Hcr & [(Hp & ->) | (r & Hp & ->)])
       | [(Hc & Hno & ->) | (Hc & ->)]].
  - split; [|reflexivity]. intros _. left. split; [exact Hc|].
    exists c. split; [exact Hcr|]. apply planRequest_None, Hp.
  - rewrite remoteWithEntry_sent_one. split; [discriminate|].
    intros [(_ & c' & Hcr' & Hv & Hf) | ([Hc'|Hno] & _)].
    + rewrite Hcr in Hcr'. injection Hcr' as <-.
      assert (planRequest' (markedResponse cc c) req = None)
        by (apply planRequest_None; auto).
      congruence.
    + congruence.
    + exfalso. apply (Hno c), Hcr.
  - rewrite remoteWithoutEntry_sent.
    destruct (hasKey _ "only-if-cached") eqn:Ho.
    + split; [|reflexivity]. intros _. right. auto.
    + split; [discriminate|].
      intros [(_ & c & Hcr & _) | (_ & Hf)]; [|discriminate].
      exfalso. apply (Hno c), Hcr.
  - rewrite remoteWithoutEntry_sent.
    destruct (hasKey _ "only-if-cached") eqn:Ho.
    + split; [|reflexivity]. intros _. right. auto.
    + split; [discriminate|].
      intros [(Hc' & _) | (_ & Hf)]; [congruence|discriminate].
Qed.

(** A fresh hit: the cached response is given back (with the
    X-From-Cache marker when the option is set), its status and body as
    stored; nothing is sent, nothing is stored or deleted, and the body
    is not wrapped. *)
Theorem fresh_hit_is_served_from_cache (cc : CachedClient) (cache : C)
    (req : Request) (c : Response) :
  cacheableRequest req = true ->
  CachedResponse ReadResponse cache req = Ok (Some c) ->
  varyMatches (markedResponse cc c) req = true ->
  getFreshness' req (RespHeader (markedResponse cc c)) = fresh ->
  executeRequest' cc cache req
  = mkExchange (Ok (markedResponse cc c)) cache [] None
  /\ Status (markedResponse cc c) = Status c
  /\ StatusCode (markedResponse cc c) = StatusCode c
  /\ Body (markedResponse cc c) = Body c
  /\ Header_Get (RespHeader (markedResponse cc c)) XFromCache
     = (if MarkCachedResponses (Options cc) then "1"
        else Header_Get (RespHeader c) XFromCache)
  /\ drainBody' cc (executeRequest' cc cache req) = cache.
Proof.
  intros Hc Hcr Hv Hf.
  assert (Hp : planRequest' (markedResponse cc c) req = None)
    by (apply planRequest_None; auto).
  assert (Hex : executeRequest' cc cache req
                = mkExchange (Ok (markedResponse cc c)) cache [] None).
  { destruct (executeRequest_paths cc cache req)
      as [(_ & c' & Hcr' & [(_ & ->) | (r & Hp' & _)])
         | [(_ & Hno & _) | (Hc' & _)]].
    - rewrite Hcr in Hcr'. injection Hcr' as <-. reflexivity.
    - rewrite Hcr in Hcr'. injection Hcr' as <-. congruence.
    - exfalso. apply (Hno c), Hcr.
    - congruence. }
  split; [exact Hex|]. rewrite Hex.
  unfold markedResponse.
  destruct (MarkCachedResponses (Options cc)); simpl;
    repeat split; auto using Header_Get_Set_eq.
Qed.

Lemma storeStage_returns (cc : CachedClient) (cacheable : bool)
    (key : string) (req : Request) (resp : Response) (cache : C)
    (out : list Request) :
  exists r, returned (storeStage' cc cacheable key req resp cache out) = Ok r.
Proof.
  unfold storeStage.
  destruct (cacheable && canStore _ _); [|eexists; reflexivity].
  destruct (String.eqb (Method req) "GET"); [eexists; reflexivity|].
  destruct (DumpResponse _); eexists; reflexivity.
Qed.

(** An exchange that ends in an error stores nothing: the body of no
    response is wrapped, and storage is as before or has lost the entry
    of the request's key. The error is the one the transport gave for the
    request sent, unchanged, or, when nothing was sent, the failure to
    build the 504 response. *)
Theorem executeRequest_error_stores_nothing (cc : CachedClient) (cache : C)
    (req : Request) (err : string) :
  returned (executeRequest' cc cache req) = Err err ->
  pending (executeRequest' cc cache req) = None
  /\ (backend (executeRequest' cc cache req) = cache
      \/ backend (executeRequest' cc cache req)
         = Cache_Delete cache (cacheKey req))
  /\ (forall r, sent (executeRequest' cc cache req) = [r] ->
        Transport cc r = Err err)
  /\ (sent (executeRequest' cc cache req) = [] ->
      err = "httpcache: could not write timeout response").
Proof.
  assert (Hwithout : forall cacheable cache',
    returned (remoteWithoutEntry' cc cacheable (cacheKey req) cache' req)
    = Err err ->
    pending (remoteWithoutEntry' cc cacheable (cacheKey req) cache' req)
    = None
    /\ backend (remoteWithoutEntry' cc cacheable (cacheKey req) cache' req)
       = cache'
    /\ (forall r,
          sent (remoteWithoutEntry' cc cacheable (cacheKey req) cache' req)
          = [r] -> Transport cc r = Err err)
    /\ (sent (remoteWithoutEntry' cc cacheable (cacheKey req) cache' req)
        = [] -> err = "httpcache: could not write timeout response")).
  { intros cacheable cache'. unfold remoteWithoutEntry.
    destruct (hasKey (parseCacheControl (ReqHeader req)) "only-if-cached").
    - unfold newGatewayTimeoutResponse.
      destruct (ReadResponse gatewayTimeoutWire req) as [resp|e].
      + destruct (storeStage_returns cc cacheable (cacheKey req) req resp
                    cache' []) as [r Hr].
        rewrite Hr. discriminate.
      + simpl. intros [= <-]. repeat split; auto. discriminate.
    - destruct (Transport cc req) as [resp|e] eqn:Ht.
      + destruct (storeStage_returns cc cacheable (cacheKey req) req resp
                    cache' [req]) as [r Hr].
        rewrite Hr. discriminate.
      + simpl. intros [= <-]. repeat split; auto; [|discriminate].
        intros r [= <-]. exact Ht. }
  destruct (executeRequest_paths cc cache req)
    as [(_ & c & _ & [(_ & ->) | (r & Hp & ->)])
       | [(_ & _ & ->) | (_ & ->)]].
  - simpl. discriminate.
  - unfold remoteWithEntry.
    destruct (Transport cc r) as [resp|e] eqn:Ht.
    + destruct (String.eqb (Method r) "GET"
                && (StatusCode resp =? StatusNotModified)%Z).
      * destruct (storeStage_returns cc true (cacheKey req) r
                    (mergeEndToEnd (markedResponse cc c) resp) cache [r])
          as [x Hx].
        rewrite Hx. discriminate.
      * destruct ((StatusCode resp >=? 500)%Z && String.eqb (Method r) "GET"
                  && canStaleOnError' (RespHeader (markedResponse cc c))
                       (ReqHeader r)); [simpl; discriminate|].
        cbv zeta.
        destruct (storeStage_returns cc true (cacheKey req) r resp
                    (if negb (StatusCode resp =? StatusOK)%Z
                     then Cache_Delete cache (cacheKey req) else cache) [r])
          as [x Hx].
        rewrite Hx. discriminate.
    + destruct (String.eqb (Method r) "GET"
                && canStaleOnError' (RespHeader (markedResponse cc c))
                     (ReqHeader r)); simpl; [discriminate|].
      intros [= <-]. repeat split; auto; [|discriminate].
      intros r' [= <-]. exact Ht.
  - intros Hr. destruct (Hwithout true cache Hr) as (Hp & Hb & Hs & Hn).
    rewrite Hb. auto.
  - intros Hr.
    destruct (Hwithout false (Cache_Delete cache (cacheKey req)) Hr)
      as (Hp & Hb & Hs & Hn).
    rewrite Hb. auto.
Qed.

(** A transport failure when a cached response was read back: for a GET
    whose stale-if-error policy allows it the cached response is given
    back and storage is left as it was; in every other case (HEAD, or no
    permission) the entry of the key is deleted and the transport's error
    is returned. *)
Theorem transport_error_after_entry_read (cc : CachedClient) (cache : C)
    (req r : Request) (c : Response) (err : string) :
  cacheableRequest req = true ->
  CachedResponse ReadResponse cache req = Ok (Some c) ->
  sent (executeRequest' cc cache req) = [r] ->
  Transport cc r = Err err ->
  executeRequest' cc cache req
  = if String.eqb (Method req) "GET"
       && canStaleOnError' (RespHeader c) (ReqHeader req)
    then mkExchange (Ok (markedResponse cc c)) cache [r] None
    else mkExchange (Err err) (Cache_Delete cache (cacheKey req)) [r] None.
Proof.
  intros Hc Hcr Hsent Ht.
  destruct (executeRequest_paths cc cache req)
    as [(_ & c' & Hcr' & [(_ & Hex) | (r' & Hp & Hex)])
       | [(_ & Hno & _) | (Hc' & _)]].
  - rewrite Hex in Hsent. discriminate.
  - rewrite Hcr in Hcr'. injection Hcr' as <-.
    rewrite Hex in Hsent. rewrite remoteWithEntry_sent_one in Hsent.
    injection Hsent as ->. rewrite Hex.
    destruct (planRequest_fields _ _ _ Hp) as (Hm & _ & Hh).
    unfold remoteWithEntry. rewrite Ht, Hm.
    unfold markedResponse at 1. rewrite marked_canStaleOnError.
    rewrite (canStaleOnError_ext Time time_Parse ParseDuration clock_since
               (RespHeader c) (RespHeader c) (ReqHeader r) (ReqHeader req)
               eq_refl eq_refl).
    + reflexivity.
    + apply Hh; vm_compute; discriminate.
  - exfalso. apply (Hno c), Hcr.
  - congruence.
Qed.

(** A 304 answer to a GET for which a cached response was read back: the
    response given back has the status and the body of the cached
    response, and its headers are those of the cached response with the
    end-to-end headers of the 304 laid over them. When neither the
    request nor the merged response carries no-store, the X-Varied echoes
    are added, the stored entry is left in place and the body is wrapped
    so that the merged response is stored again once it is read to its
    end; when one of them carries no-store, the merged response is given
    back as it is and the entry of the key is deleted. *)
Theorem not_modified_returns_cached_body (cc : CachedClient) (cache : C)
    (req r : Request) (c tr : Response) :
  cacheableRequest req = true ->
  Method req = "GET" ->
  CachedResponse ReadResponse cache req = Ok (Some c) ->
  sent (executeRequest' cc cache req) = [r] ->
  Transport cc r = Ok tr ->
  StatusCode tr = StatusNotModified ->
  let merged := mergeEndToEnd (markedResponse cc c) tr in
  let storing := canStore (parseCacheControl (ReqHeader req))
                   (parseCacheControl (RespHeader merged)) in
  executeRequest' cc cache req
  = (if storing
     then mkExchange (Ok (echoVaried r merged)) cache [r]
            (Some (cacheKey req))
     else mkExchange (Ok merged) (Cache_Delete cache (cacheKey req)) [r]
            None)
  /\ exists resp,
       returned (executeRequest' cc cache req) = Ok resp
       /\ Status resp = Status c /\ StatusCode resp = StatusCode c
       /\ Body resp = Body c.
Proof.
  intros Hc Hm Hcr Hsent Ht H304. cbv zeta.
  assert (Hex : executeRequest' cc cache req
                = if canStore (parseCacheControl (ReqHeader req))
                       (parseCacheControl
                          (RespHeader
                             (mergeEndToEnd (markedResponse cc c) tr)))
                  then mkExchange
                         (Ok (echoVaried r
                                (mergeEndToEnd (markedResponse cc c) tr)))
                         cache [r] (Some (cacheKey req))
                  else mkExchange
                         (Ok (mergeEndToEnd (markedResponse cc c) tr))
                         (Cache_Delete cache (cacheKey req)) [r] None).
  { destruct (executeRequest_paths cc cache req)
      as [(_ & c' & Hcr' & [(_ & Hex) | (r' & Hp & Hex)])
         | [(_ & Hno & _) | (Hc' & _)]].
    - rewrite Hex in Hsent. discriminate.
    - rewrite Hcr in Hcr'. injection Hcr' as <-.
      rewrite Hex in Hsent. rewrite remoteWithEntry_sent_one in Hsent.
      injection Hsent as ->. rewrite Hex.
      destruct (planRequest_fields _ _ _ Hp) as (Hm' & _ & Hh).
      assert (Hcc : Header_Get (ReqHeader r) "Cache-Control"
                    = Header_Get (ReqHeader req) "Cache-Control")
        by (apply Hh; vm_compute; discriminate).
      unfold remoteWithEntry. rewrite Ht, Hm', Hm, H304. simpl.
      unfold storeStage. rewrite (parseCacheControl_ext _ _ Hcc), Hm', Hm.
      simpl.
      destruct (canStore _ _); reflexivity.
    - exfalso. apply (Hno c), Hcr.
    - congruence. }
  split; [exact Hex|]. rewrite Hex.
  assert (Hmark : Status (markedResponse cc c) = Status c
                  /\ StatusCode (markedResponse cc c) = StatusCode c
                  /\ Body (markedResponse cc c) = Body c).
  { unfold markedResponse.
    destruct (MarkCachedResponses (Options cc)); simpl; auto. }
  destruct Hmark as (M1 & M2 & M3).
  destruct (echoVaried_fields r (mergeEndToEnd (markedResponse cc c) tr))
    as (F1 & F2 & F3 & _).
  destruct (canStore _ _); eexists; (split; [reflexivity|]).
  - rewrite F1, F2, F3. simpl. auto.
  - simpl. auto.
Qed.

(** A cacheable request for which nothing readable is stored, answered by
    the transport with a response that may be stored: the response is
    given back with the X-Varied echoes added; for HEAD its dump is
    stored under the request's key before the function returns, for GET
    storage is untouched at the return and the dump is stored once the
    caller has read the body to its end. The status of the response plays
    no part. The next lookup of the same request reads that dump. *)
Theorem storable_response_is_stored (Hlaw : LawfulCache C)
    (cc : CachedClient) (cache : C) (req : Request) (tr : Response)
    (b : list byte) :
  cacheableRequest req = true ->
  (forall c, CachedResponse ReadResponse cache req <> Ok (Some c)) ->
  hasKey (parseCacheControl (ReqHeader req)) "only-if-cached" = false ->
  Transport cc req = Ok tr ->
  canStore (parseCacheControl (ReqHeader req))
    (parseCacheControl (RespHeader tr)) = true ->
  DumpResponse (echoVaried req tr) = Ok b ->
  returned (executeRequest' cc cache req) = Ok (echoVaried req tr)
  /\ sent (executeRequest' cc cache req) = [req]
  /\ (if String.eqb (Method req) "GET"
      then backend (executeRequest' cc cache req) = cache
           /\ pending (executeRequest' cc cache req) = Some (cacheKey req)
      else Cache_Get (backend (executeRequest' cc cache req)) (cacheKey req)
           = Some b
           /\ pending (executeRequest' cc cache req) = None)
  /\ Cache_Get (drainBody' cc (executeRequest' cc cache req)) (cacheKey req)
     = Some b
  /\ CachedResponse ReadResponse
       (drainBody' cc (executeRequest' cc cache req)) req
     = match ReadResponse b req with
       | Ok resp => Ok (Some resp)
       | Err e => Err e
       end.
Proof.
  intros Hc Hno Ho Ht Hstore Hd.
  assert (Hex : executeRequest' cc cache req
                = if String.eqb (Method req) "GET"
                  then mkExchange (Ok (echoVaried req tr)) cache [req]
                         (Some (cacheKey req))
                  else mkExchange (Ok (echoVaried req tr))
                         (Cache_Set cache (cacheKey req) b (TTL (Options cc)))
                         [req] None).
  { destruct (executeRequest_paths cc cache req)
      as [(_ & c' & Hcr' & _) | [(_ & _ & ->) | (Hc' & _)]].
    - exfalso. apply (Hno c'), Hcr'.
    - unfold remoteWithoutEntry. rewrite Ho, Ht.
      unfold storeStage. rewrite Hstore. simpl.
      destruct (String.eqb (Method req) "GET"); [reflexivity|].
      rewrite Hd. reflexivity.
    - congruence. }
  rewrite Hex.
  assert (Hdrain : Cache_Get
                     (drainBody' cc
                        (if String.eqb (Method req) "GET"
                         then mkExchange (Ok (echoVaried req tr)) cache [req]
                                (Some (cacheKey req))
                         else mkExchange (Ok (echoVaried req tr))
                                (Cache_Set cache (cacheKey req) b
                                   (TTL (Options cc))) [req] None))
                     (cacheKey req) = Some b).
  { destruct (String.eqb (Method req) "GET"); unfold drainBody; simpl.
    - rewrite storeOnEOF_whole_body, Hd. apply Cache_Get_Set.
    - apply Cache_Get_Set. }
  split; [destruct (String.eqb (Method req) "GET"); reflexivity|].
  split; [destruct (String.eqb (Method req) "GET"); reflexivity|].
  split.
  { destruct (String.eqb (Method req) "GET"); simpl;
      [auto|split; [apply Cache_Get_Set|reflexivity]]. }
  split; [exact Hdrain|].
  unfold CachedResponse. rewrite Hdrain. reflexivity.
Qed.

(** A request that is not cacheable (another method than GET and HEAD, or
    a Range header) and does not say only-if-cached goes to the transport
    as it came, and what the transport gives, response or error, is
    handed back as it is; the entry stored under the request's key is
    deleted, and nothing is stored. *)
Theorem non_cacheable_request_passes_through (Hlaw : LawfulCache C)
    (cc : CachedClient) (cache : C) (req : Request) :
  cacheableRequest req = false ->
  hasKey (parseCacheControl (ReqHeader req)) "only-if-cached" = false ->
  returned (executeRequest' cc cache req) = Transport cc req
  /\ sent (executeRequest' cc cache req) = [req]
  /\ pending (executeRequest' cc cache req) = None
  /\ Cache_Get (backend (executeRequest' cc cache req)) (cacheKey req)
     = None
  /\ drainBody' cc (executeRequest' cc cache req)
     = backend (executeRequest' cc cache req).
Proof.
  intros Hc Ho.
  destruct (executeRequest_paths cc cache req)
    as [(Hc' & _) | [(Hc' & _) | (_ & ->)]]; try congruence.
  unfold remoteWithoutEntry, drainBody. rewrite Ho.
  destruct (Transport cc req) as [resp|e].
  - unfold storeStage. simpl.
    repeat split; auto. apply Cache_Get_Delete.
  - simpl. repeat split; auto. apply Cache_Get_Delete.
Qed.

Lemma remoteWithoutEntry_any_backend (cc : CachedClient)
    (cacheable : bool) (key : string) (cache cache' : C) (req : Request) :
  returned (remoteWithoutEntry' cc cacheable key cache req)
  = returned (remoteWithoutEntry' cc cacheable key cache' req)
  /\ sent (remoteWithoutEntry' cc cacheable key cache req)
     = sent (remoteWithoutEntry' cc cacheable key cache' req)
  /\ pending (remoteWithoutEntry' cc cacheable key cache req)
     = pending (remoteWithoutEntry' cc cacheable key cache' req).
Proof.
  unfold remoteWithoutEntry, storeStage.
  destruct (hasKey (parseCacheControl (ReqHeader req)) "only-if-cached").
  - destruct (newGatewayTimeoutResponse ReadResponse req) as [resp|e];
      [|auto].
    destruct (cacheable && canStore _ _); [|auto].
    destruct (String.eqb (Method req) "GET"); [auto|].
    destruct (DumpResponse _); auto.
  - destruct (Transport cc req) as [resp|e]; [|auto].
    destruct (cacheable && canStore _ _); [|auto].
    destruct (String.eqb (Method req) "GET"); [auto|].
    destruct (DumpResponse _); auto.
Qed.

(** An entry that cannot be read back is treated as a miss: when the
    bytes stored under the key do not deserialize, the exchange gives
    back the same result, sends the same request and wraps the body in
    the same way as it would with nothing stored under the key. *)
Theorem unreadable_entry_is_a_miss (Hlaw : LawfulCache C)
    (cc : CachedClient) (cache : C) (req : Request) :
  (forall c, CachedResponse ReadResponse cache req <> Ok (Some c)) ->
  returned (executeRequest' cc cache req)
  = returned (executeRequest' cc (Cache_Delete cache (cacheKey req)) req)
  /\ sent (executeRequest' cc cache req)
     = sent (executeRequest' cc (Cache_Delete cache (cacheKey req)) req)
  /\ pending (executeRequest' cc cache req)
     = pending (executeRequest' cc (Cache_Delete cache (cacheKey req)) req).
Proof.
  intros Hno.
  assert (Hmiss : forall c,
            CachedResponse ReadResponse
              (Cache_Delete cache (cacheKey req)) req <> Ok (Some c)).
  { intros c. unfold CachedResponse. rewrite Cache_Get_Delete.
    discriminate. }
  destruct (executeRequest_paths cc cache req)
    as [(_ & c & Hcr & _) | [(Hc & _ & ->) | (Hc & ->)]].
  - exfalso. apply (Hno c), Hcr.
  - destruct (executeRequest_paths cc (Cache_Delete cache (cacheKey req))
                req) as [(_ & c & Hcr & _) | [(_ & _ & ->) | (Hc' & _)]].
    + exfalso. apply (Hmiss c), Hcr.
    + apply remoteWithoutEntry_any_backend.
    + congruence.
  - destruct (executeRequest_paths cc (Cache_Delete cache (cacheKey req))
                req) as [(Hc' & _) | [(Hc' & _) | (_ & ->)]];
      try congruence.
    apply remoteWithoutEntry_any_backend.
Qed.

Lemma storeStage_changedOnlyAt (cc : CachedClient) (cacheable : bool)
    (key : string) (req : Request) (resp : Response) (cache cache0 : C)
    (out : list Request) :
  changedOnlyAt key cache cache0 ->
  changedOnlyAt key cache
    (backend (storeStage' cc cacheable key req resp cache0 out))
  /\ (pending (storeStage' cc cacheable key req resp cache0 out) = None
      \/ pending (storeStage' cc cacheable key req resp cache0 out)
         = Some key).
Proof.
  intros H0. unfold storeStage.
  destruct (cacheable && canStore _ _).
  - destruct (String.eqb (Method req) "GET"); simpl; [auto|].
    destruct (DumpResponse _); simpl; split; auto.
    apply changedOnlyAt_Set, H0.
  - simpl. split; [apply changedOnlyAt_Delete, H0|auto].
Qed.

Lemma storeOnEOF_changedOnlyAt (cc : CachedClient) (key : string)
    (resp : Response) (r : list byte) (cache cache0 : C) :
  changedOnlyAt key cache cache0 ->
  changedOnlyAt key cache (storeOnEOF DumpResponse cc key resp r cache0).
Proof.
  intros H0. unfold storeOnEOF.
  destruct (DumpResponse _); [apply changedOnlyAt_Set, H0|exact H0].
Qed.

(** Whatever an exchange does to the backend, before the return and when
    the body is read to its end, is a [Delete] or a [Set] of the
    request's own key. *)
Lemma executeRequest_changedOnlyAt (cc : CachedClient) (cache : C)
    (req : Request) :
  changedOnlyAt (cacheKey req) cache (backend (executeRequest' cc cache req))
  /\ changedOnlyAt (cacheKey req) cache
       (drainBody' cc (executeRequest' cc cache req)).
Proof.
  assert (Hmain :
    changedOnlyAt (cacheKey req) cache
      (backend (executeRequest' cc cache req))
    /\ (pending (executeRequest' cc cache req) = None
        \/ pending (executeRequest' cc cache req) = Some (cacheKey req))).
  { assert (Hwithout : forall cacheable cache0,
      changedOnlyAt (cacheKey req) cache cache0 ->
      changedOnlyAt (cacheKey req) cache
        (backend (remoteWithoutEntry' cc cacheable (cacheKey req) cache0 req))
      /\ (pending (remoteWithoutEntry' cc cacheable (cacheKey req) cache0
                     req) = None
          \/ pending (remoteWithoutEntry' cc cacheable (cacheKey req) cache0
                        req) = Some (cacheKey req))).
    { intros cacheable cache0 H0. unfold remoteWithoutEntry.
      destruct (hasKey (parseCacheControl (ReqHeader req)) "only-if-cached").
      - destruct (newGatewayTimeoutResponse ReadResponse req);
          [apply storeStage_changedOnlyAt, H0|simpl; auto].
      - destruct (Transport cc req);
          [apply storeStage_changedOnlyAt, H0|simpl; auto]. }
    destruct (executeRequest_paths cc cache req)
      as [(_ & c & _ & [(_ & ->) | (r & _ & ->)])
         | [(_ & _ & ->) | (_ & ->)]].
    - simpl. split; [constructor|auto].
    - unfold remoteWithEntry.
      destruct (Transport cc r) as [resp|e].
      + destruct (String.eqb (Method r) "GET"
                  && (StatusCode resp =? StatusNotModified)%Z).
        * apply storeStage_changedOnlyAt. constructor.
        * destruct ((StatusCode resp >=? 500)%Z
                    && String.eqb (Method r) "GET"
                    && canStaleOnError' (RespHeader (markedResponse cc c))
                         (ReqHeader r)).
          -- simpl. split; [constructor|auto].
          -- cbv zeta. apply storeStage_changedOnlyAt.
             destruct (negb (StatusCode resp =? StatusOK)%Z);
               repeat constructor.
      + destruct (String.eqb (Method r) "GET"
                  && canStaleOnError' (RespHeader (markedResponse cc c))
                       (ReqHeader r)); simpl; split; auto;
          repeat constructor.
    - apply Hwithout. constructor.
    - apply Hwithout. repeat constructor. }
  destruct Hmain as [Hb Hp]. split; [exact Hb|].
  unfold drainBody.
  destruct Hp as [-> | ->]; [exact Hb|].
  destruct (returned (executeRequest' cc cache req));
    [apply storeOnEOF_changedOnlyAt, Hb|exact Hb].
Qed.

End OrchestratorMore.

Lemma changedOnlyAt_other_keys (key : string) (cache c : MemoryCache) :
  changedOnlyAt key cache c ->
  forall key', key' <> key ->
    MemoryCache_Get c key' = MemoryCache_Get cache key'.
Proof.
  induction 1 as [|c Hc IH|c b ttl Hc IH]; intros key' Hne.
  - reflexivity.
  - rewrite <- (IH key' Hne). simpl.
    unfold MemoryCache_Get, MemoryCache_Delete. simpl.
    apply lookup_delete_ne. congruence.
  - rewrite <- (IH key' Hne). simpl.
    unfold MemoryCache_Get, MemoryCache_Set. simpl.
    apply lookup_insert_ne. congruence.
Qed.

Section MoreOnTheEngine.

Variable Time : Type.
Variable time_Parse : string -> result Time.
Variable Time_Sub : Time -> Time -> Z.
Variable ParseDuration : string -> result Z.
Variable clock_since : Time -> Z.
Variable ReadResponse : list byte -> Request -> result Response.
Variable DumpResponse : Response -> result (list byte).

(** On the in-memory backend an exchange reads and writes the entry of
    the request's own key only: every other key holds after the exchange,
    and after the body has been read to its end, what it held before. In
    particular a request that is not a GET (a HEAD, or a POST that
    invalidates) leaves the entry stored for the GET of the same URL as
    it was. *)
Theorem executeRequest_touches_only_its_key (cc : CachedClient)
    (cache : MemoryCache) (req : Request) :
  let ex := executeRequest Time time_Parse Time_Sub ParseDuration
              clock_since ReadResponse DumpResponse cc cache req in
  (forall key', key' <> cacheKey req ->
     MemoryCache_Get (backend ex) key' = MemoryCache_Get cache key'
     /\ MemoryCache_Get (drainBody DumpResponse cc ex) key'
        = MemoryCache_Get cache key')
  /\ (Method req <> "GET" ->
      MemoryCache_Get (backend ex) (URL req)
      = MemoryCache_Get cache (URL req)
      /\ MemoryCache_Get (drainBody DumpResponse cc ex) (URL req)
         = MemoryCache_Get cache (URL req)).
Proof.
  cbv zeta.
  destruct (executeRequest_changedOnlyAt Time time_Parse Time_Sub
              ParseDuration clock_since ReadResponse DumpResponse
              cc cache req) as [Hb Hd].
  assert (Hframe : forall key', key' <> cacheKey req ->
            MemoryCache_Get
              (backend (executeRequest Time time_Parse Time_Sub ParseDuration
                          clock_since ReadResponse DumpResponse cc cache req))
              key' = MemoryCache_Get cache key'
            /\ MemoryCache_Get
                 (drainBody DumpResponse cc
                    (executeRequest Time time_Parse Time_Sub ParseDuration
                       clock_since ReadResponse DumpResponse cc cache req))
                 key' = MemoryCache_Get cache key').
  { intros key' Hne. split.
    - apply (changedOnlyAt_other_keys _ _ _ Hb key' Hne).
    - apply (changedOnlyAt_other_keys _ _ _ Hd key' Hne). }
  split; [exact Hframe|].
  intros Hm. apply Hframe. intros Heq. symmetry in Heq.
  exact (cacheKey_not_URL req Hm Heq).
Qed.

(** What the verdict of [getFreshness] tells about its inputs: it is
    transparent exactly when the request carries no-cache; a fresh
    verdict is never given for a response that carries no-cache, and,
    unless the request says only-if-cached, never for a response whose
    Date header is missing or does not parse. *)
Theorem getFreshness_verdicts (req : Request) (respHeaders : Header) :
  let verdict := getFreshness Time time_Parse Time_Sub ParseDuration
                   clock_since req respHeaders in
  (verdict = transparent
   <-> hasKey (parseCacheControl (ReqHeader req)) "no-cache" = true)
  /\ (verdict = fresh ->
      hasKey (parseCacheControl respHeaders) "no-cache" = false
      /\ (hasKey (parseCacheControl (ReqHeader req)) "only-if-cached" = true
          \/ exists date, Date Time time_Parse respHeaders = Ok date)).
Proof.
  cbv zeta. unfold getFreshness.
  destruct (hasKey (parseCacheControl (ReqHeader req)) "no-cache").
  { split; [split; reflexivity|discriminate]. }
  destruct (hasKey (parseCacheControl respHeaders) "no-cache").
  { split; [split; discriminate|discriminate]. }
  destruct (hasKey (parseCacheControl (ReqHeader req)) "only-if-cached").
  { split; [split; discriminate|auto]. }
  destruct (Date Time time_Parse respHeaders) as [date|e].
  2: { split; [split; discriminate|discriminate]. }
  split.
  - split; [|discriminate].
    repeat match goal with
           | |- context [match ?x with _ => _ end] => destruct x
           end; discriminate.
  - intros _. split; [reflexivity|]. right. exists date. reflexivity.
Qed.

End MoreOnTheEngine.

(** ** The further properties on concrete exchanges *)

Lemma fresh_hit_is_served_from_cache_witness :
  Sample.run (30 * Sample.second) (Sample.client Sample.notFound)
    (Sample.stored Sample.url Sample.sixty) (Sample.GET Sample.url [])
  = mkExchange
      (Ok (markedResponse (Sample.client Sample.notFound) Sample.sixty))
      (Sample.stored Sample.url Sample.sixty) [] None.
Proof.
  unfold Sample.run.
  apply (fresh_hit_is_served_from_cache Z Sample.time_Parse Sample.Time_Sub
           Sample.ParseDuration (Sample.clock_since (30 * Sample.second))
           Sample.ReadResponse Sample.DumpResponse
           (Sample.client Sample.notFound)
           (Sample.stored Sample.url Sample.sixty)
           (Sample.GET Sample.url []) Sample.sixty).
  - vm_compute. reflexivity.
  - vm_compute. reflexivity.
  - vm_compute. reflexivity.
  - vm_compute. reflexivity.
Defined.

Lemma executeRequest_error_stores_nothing_witness :
  pending (Sample.run 0 Sample.offline NewMemoryCache
             (Sample.GET Sample.url [])) = None.
Proof.
  unfold Sample.run.
  apply (executeRequest_error_stores_nothing Z Sample.time_Parse
           Sample.Time_Sub Sample.ParseDuration (Sample.clock_since 0)
           Sample.ReadResponse Sample.DumpResponse Sample.offline
           NewMemoryCache (Sample.GET Sample.url [])
           "dial tcp: connection refused").
  vm_compute. reflexivity.
Defined.

Lemma transport_error_after_entry_read_witness :
  Sample.run 0 Sample.offline (Sample.stored Sample.url Sample.tolerant)
    (Sample.GET Sample.url [])
  = mkExchange (Ok Sample.tolerant)
      (Sample.stored Sample.url Sample.tolerant)
      [Sample.GET Sample.url []] None.
Proof.
  unfold Sample.run.
  rewrite (transport_error_after_entry_read Z Sample.time_Parse
             Sample.Time_Sub Sample.ParseDuration (Sample.clock_since 0)
             Sample.ReadResponse Sample.DumpResponse Sample.offline
             (Sample.stored Sample.url Sample.tolerant)
             (Sample.GET Sample.url []) (Sample.GET Sample.url [])
             Sample.tolerant "dial tcp: connection refused").
  - vm_compute. reflexivity.
  - vm_compute. reflexivity.
  - vm_compute. reflexivity.
  - vm_compute. reflexivity.
  - vm_compute. reflexivity.
Defined.

(** The same failure on a HEAD, or without stale-if-error, deletes the
    entry and is returned. *)
Example transport_error_without_fallback :
  let ex := Sample.run 0 Sample.offline
              (Sample.stored Sample.url Sample.tagged)
              (Sample.GET Sample.url []) in
  returned ex = Err "dial tcp: connection refused"
  /\ Cache_Get (backend ex) Sample.url = None.
Proof. cbv zeta. split; vm_compute; reflexivity. Qed.

Lemma not_modified_returns_cached_body_witness :
  exists resp,
    returned (Sample.run 0 (Sample.client Sample.notModified)
                (Sample.stored Sample.url Sample.tagged)
                (Sample.GET Sample.url [])) = Ok resp
    /\ Status resp = "200 OK" /\ StatusCode resp = 200%Z
    /\ Body resp = list_byte_of_string "hello".
Proof.
  unfold Sample.run.
  apply (not_modified_returns_cached_body Z Sample.time_Parse
           Sample.Time_Sub Sample.ParseDuration (Sample.clock_since 0)
           Sample.ReadResponse Sample.DumpResponse
           (Sample.client Sample.notModified)
           (Sample.stored Sample.url Sample.tagged)
           (Sample.GET Sample.url [])
           (Sample.GET Sample.url [("If-None-Match", "v1")])
           Sample.tagged Sample.notModified).
  - vm_compute. reflexivity.
  - reflexivity.
  - vm_compute. reflexivity.
  - vm_compute. reflexivity.
  - reflexivity.
  - reflexivity.
Defined.

(** The ETag of the 304 replaces the cached one in the response given
    back. *)
Example not_modified_refreshes_headers :
  match returned (Sample.run 0 (Sample.client Sample.notModified)
                    (Sample.stored Sample.url Sample.tagged)
                    (Sample.GET Sample.url [])) with
  | Ok resp => Header_Get (RespHeader resp) "etag"
  | Err e => e
  end = "v2".
Proof. vm_compute. reflexivity. Qed.

Lemma storable_response_is_stored_witness :
  Cache_Get
    (drainBody Sample.DumpResponse (Sample.client Sample.plain)
       (Sample.run 0 (Sample.client Sample.plain) NewMemoryCache
          (Sample.GET Sample.url [])))
    (cacheKey (Sample.GET Sample.url []))
  = Some (Sample.wire Sample.plain).
Proof.
  unfold Sample.run.
  apply (storable_response_is_stored Z Sample.time_Parse
           Sample.Time_Sub Sample.ParseDuration (Sample.clock_since 0)
           Sample.ReadResponse Sample.DumpResponse MemoryCache_lawful
           (Sample.client Sample.plain) NewMemoryCache
           (Sample.GET Sample.url []) Sample.plain
           (Sample.wire Sample.plain)).
  - vm_compute. reflexivity.
  - intros c. vm_compute. discriminate.
  - vm_compute. reflexivity.
  - reflexivity.
  - vm_compute. reflexivity.
  - vm_compute. reflexivity.
Defined.

Lemma non_cacheable_request_passes_through_witness :
  returned (Sample.run 0 (Sample.client Sample.plain)
              (Sample.stored ("POST " ++ Sample.url) Sample.tagged)
              (Sample.POST Sample.url []))
  = Ok Sample.plain.
Proof.
  unfold Sample.run.
  rewrite (proj1 (non_cacheable_request_passes_through Z Sample.time_Parse
                    Sample.Time_Sub Sample.ParseDuration
                    (Sample.clock_since 0) Sample.ReadResponse
                    Sample.DumpResponse MemoryCache_lawful
                    (Sample.client Sample.plain)
                    (Sample.stored ("POST " ++ Sample.url) Sample.tagged)
                    (Sample.POST Sample.url [])
                    ltac:(vm_compute; reflexivity)
                    ltac:(vm_compute; reflexivity))).
  reflexivity.
Defined.

Lemma unreadable_entry_is_a_miss_witness :
  returned (Sample.run 0 (Sample.client Sample.plain) Sample.garbled
              (Sample.GET Sample.url []))
  = returned (Sample.run 0 (Sample.client Sample.plain)
                (Cache_Delete Sample.garbled
                   (cacheKey (Sample.GET Sample.url [])))
                (Sample.GET Sample.url [])).
Proof.
  unfold Sample.run.
  apply (unreadable_entry_is_a_miss Z Sample.time_Parse
           Sample.Time_Sub Sample.ParseDuration (Sample.clock_since 0)
           Sample.ReadResponse Sample.DumpResponse MemoryCache_lawful
           (Sample.client Sample.plain) Sample.garbled
           (Sample.GET Sample.url [])).
  intros c. vm_compute. discriminate.
Defined.

(** A POST deletes the entry of its own key and leaves the entry stored
    for the GET of the same URL. *)
Example POST_leaves_GET_entry :
  let ex := Sample.run 0 (Sample.client Sample.plain)
              (Sample.stored Sample.url Sample.tagged)
              (Sample.POST Sample.url []) in
  Cache_Get (backend ex) Sample.url = Some (Sample.wire Sample.tagged).
Proof. vm_compute. reflexivity. Qed.

Lemma executeRequest_touches_only_its_key_witness :
  MemoryCache_Get
    (backend (Sample.run 0 (Sample.client Sample.plain)
                (Sample.stored Sample.url Sample.tagged)
                (Sample.POST Sample.url []))) Sample.url
  = MemoryCache_Get (Sample.stored Sample.url Sample.tagged) Sample.url.
Proof.
  unfold Sample.run.
  apply (executeRequest_touches_only_its_key Z Sample.time_Parse
           Sample.Time_Sub Sample.ParseDuration (Sample.clock_since 0)
           Sample.ReadResponse Sample.DumpResponse
           (Sample.client Sample.plain)
           (Sample.stored Sample.url Sample.tagged)
           (Sample.POST Sample.url [])).
  vm_compute. discriminate.
Defined.

Lemma getFreshness_verdicts_witness :
  hasKey (parseCacheControl (RespHeader Sample.sixty)) "no-cache" = false.
Proof.
  apply (getFreshness_verdicts Z Sample.time_Parse Sample.Time_Sub
           Sample.ParseDuration (Sample.clock_since (30 * Sample.second))
           (Sample.GET Sample.url []) (RespHeader Sample.sixty)).
  vm_compute. reflexivity.
Defined.

Lemma getFreshness_as_stated_without_overflow_witness :
  getFreshness Z Sample.time_Parse Sample.Time_Sub Sample.ParseDuration
    (Sample.clock_since (10 * Sample.second))
    (Sample.GET Sample.url [("Cache-Control", "min-fresh=30")])
    (RespHeader Sample.sixty)
  = getFreshness_spec Z Sample.time_Parse Sample.Time_Sub
      Sample.ParseDuration (Sample.clock_since (10 * Sample.second))
      (Sample.GET Sample.url [("Cache-Control", "min-fresh=30")])
      (RespHeader Sample.sixty).
Proof.
  apply (getFreshness_as_stated_without_overflow Z Sample.time_Parse
           Sample.Time_Sub Sample.ParseDuration
           (Sample.clock_since (10 * Sample.second))
           (Sample.GET Sample.url [("Cache-Control", "min-fresh=30")])
           (RespHeader Sample.sixty)).
  intros date Hdate. vm_compute in Hdate. injection Hdate as <-.
  unfold int64.
  split; split; vm_compute; first [reflexivity | discriminate].
Defined.

(** White space in the sense of Unicode is trimmed from a field, not only
    the ASCII blanks: a no-break space (U+00A0, bytes C2 A0) after a
    field name and an ideographic space (U+3000, bytes E3 80 80) before
    one are removed, while a byte C2 that starts no white space rune is
    kept. *)
Example headerAllCommaSepValues_unicode_space :
  let nbsp := String (ascii_of_nat 194) (String (ascii_of_nat 160) "") in
  let ideographic :=
    String (ascii_of_nat 227)
      (String (ascii_of_nat 128) (String (ascii_of_nat 128) "")) in
  let cent := String (ascii_of_nat 194) (String (ascii_of_nat 162) "") in
  headerAllCommaSepValues
    (Sample.header
       [("Vary", "Accept-Language" ++ nbsp ++ " ," ++ ideographic
                 ++ "Accept" ++ cent)])
    "vary"
  = ["Accept-Language"; "Accept" ++ cent].
Proof. vm_compute. reflexivity. Qed.
